(** * PRISMA Procurement API: the ranking / estimation core

    A shallow embedding of [src/core/utils.py], [src/core/cache.py] and
    of the search and route operations of [src/routes/suppliers.py],
    followed by the properties the specification states about them.

    Numbers.  The Python code computes on [float] (and on [int] for a few
    JSON fields).  Wherever the code only adds, subtracts, multiplies,
    divides, compares and rounds, a number is modelled by an exact
    rational ([Q]): a decimal literal such as [0.06] is the fraction it
    denotes and [round(x, 2)] is rounding to the nearest hundredth, an
    exact tie going to the even neighbour.  The haversine distance needs
    [math.sin], [math.cos], [math.atan2] and [math.sqrt]; it is modelled
    over the real numbers in the module [GeoMath], and the routes take
    the distance function as a parameter.  Neither model has NaN,
    infinities or binary rounding error; where the program's binary64
    arithmetic decides otherwise than the exact one (a product that is
    an exact tie of the rounding, a difference that does not reach 0, a
    sum that passes 1), the module [Binary64] evaluates the program's
    own arithmetic, and the properties that such a case touches are
    stated so that they hold of both.

    Dictionaries.  A supplier is a [Dict[str, Any]] read from JSON.  The
    functions below read and write its number-valued entries only, so a
    supplier is the finite map [gmap string Q] of those entries; a
    missing key is a missing key of the map.

    Time.  A [datetime] is a number of microseconds ([Z]); every call of
    [datetime.utcnow()] takes the next reading of a clock oracle. *)

From Stdlib Require Import PrimFloat.
From Stdlib Require FloatOps SpecFloat Uint63.
From Stdlib Require Import Reals Lra.
From Stdlib Require Import QArith Qround Qminmax Qabs Lqa Lia ZArith.
From Stdlib Require Import Sorting.Sorted Sorting.Permutation.
From Stdlib Require Import Ascii String.
From stdpp Require Import gmap strings list fin_maps.

Local Open Scope Q_scope.

(** ** Numbers *)

(** [round(x)] of Python 3 on an exact value: the nearest integer, an
    exact tie going to the even neighbour. *)
Definition round_half_even (q : Q) : Z :=
  let f := Qfloor q in
  match Qcompare (q - inject_Z f) (1 # 2) with
  | Lt => f
  | Gt => (f + 1)%Z
  | Eq => if Z.even f then f else (f + 1)%Z
  end.

(** [round(x, 2)]: the nearest multiple of [0.01], in lowest terms. *)
Definition round2 (q : Q) : Q := Qred (round_half_even (q * 100) # 100).

(** [round(x, 4)]. *)
Definition round4 (q : Q) : Q := Qred (round_half_even (q * 10000) # 10000).

(** [int(x)]: truncation towards zero. *)
Definition Qtrunc (q : Q) : Z := Z.quot (Qnum q) (Zpos (Qden q)).

(** Truth value of a number, as in [if x:]: zero is false. *)
Definition truthy (q : Q) : bool := negb (Qeq_bool q 0).

(** The comparisons [a < b] and [a <= b] as tests. *)
Definition Qltb (a b : Q) : bool :=
  match Qcompare a b with Lt => true | _ => false end.

Definition Qleb (a b : Q) : bool :=
  match Qcompare a b with Gt => false | _ => true end.

(** A sort-key component: a stored number, or [float('inf')]. *)
Inductive item : Type :=
| Num (q : Q)
| PosInf.

(** [a == b] and [a < b] on key components. *)
Definition item_eqb (a b : item) : bool :=
  match a, b with
  | Num x, Num y => Qeq_bool x y
  | PosInf, PosInf => true
  | _, _ => false
  end.

Definition item_ltb (a b : item) : bool :=
  match a, b with
  | Num x, Num y => Qltb x y
  | Num _, PosInf => true
  | PosInf, _ => false
  end.

(** [x < y] on tuples: the first position where the two differ decides;
    when one is a prefix of the other the shorter is the smaller. *)
Fixpoint tuple_ltb (x y : list item) : bool :=
  match x, y with
  | a :: x', b :: y' => if item_eqb a b then tuple_ltb x' y' else item_ltb a b
  | [], _ :: _ => true
  | _, [] => false
  end.

(** [sorted(iterable, key=key)].  Python's sort is stable and compares
    keys with [<] only.  On keys that [<] orders totally every stable
    sort returns the same list (see [rank_suppliers_unique]); it is
    computed here by insertion from the right: an element goes in front
    of the first one whose key is not smaller than its own. *)
Section Sorted.
Context {A K : Type} (key : A -> K) (ltb : K -> K -> bool).

Fixpoint insort (x : A) (l : list A) : list A :=
  match l with
  | [] => [x]
  | y :: l' => if ltb (key y) (key x) then y :: insort x l' else x :: y :: l'
  end.

Definition sorted (l : list A) : list A := fold_right insort [] l.

End Sorted.

(** ** Suppliers *)

(** The number-valued entries of a supplier dictionary. *)
Abbreviation supplier := (gmap string Q).

(** [d.get(key, default)]. *)
Definition dict_get (d : supplier) (key : string) (default : Q) : Q :=
  match d !! key with
  | Some v => v
  | None => default
  end.

(** ** RankingEngine *)

Definition default_criteria : list string :=
  ["distance_km"; "price_inr_per_ton"; "lead_time_days"]%string.

(** [tuple(s.get(c, float('inf')) for c in criteria)]. *)
Definition sort_key (criteria : list string) (s : supplier) : list item :=
  map (fun c => match s !! c with Some v => Num v | None => PosInf end) criteria.

Definition rank_suppliers
    (suppliers : list supplier) (criteria : option (list string)) : list supplier :=
  match suppliers with
  | [] => []
  | _ =>
      let criteria :=
        match criteria with
        | None => default_criteria
        | Some c => c
        end in
      sorted (sort_key criteria) tuple_ltb suppliers
  end.

(** The list comprehension
    [[s for s in suppliers if s.get("stock_tons", 0) >= required_quantity]]. *)
Definition filter_eligible_suppliers
    (suppliers : list supplier) (required_quantity : Q) : list supplier :=
  List.filter (fun s => Qleb required_quantity (dict_get s "stock_tons" 0))
              suppliers.

(** The entry appended to the split plan: a copy of the supplier with
    the two annotations. *)
Definition split_supplier (s : supplier) (allocation : Q) : supplier :=
  <["estimated_cost_inr" := round2 (allocation * dict_get s "price_inr_per_ton" 0)]>
    (<["allocated_tons" := round2 allocation]> s).

(** The [for] loop of [create_split_plan] from a given [remaining]; the
    result is what the loop appends to [split_plan].  [continue] goes on
    with the next supplier without the final test, [break] ends the
    walk.  The subtraction is exact here; on binary64 the remainder of
    decimal quantities can stay a hair above 0 (0.8 - 0.7 - 0.1), and
    the program then walks on to one more supplier, whose entry records
    [allocated_tons = 0.0]. *)
Fixpoint split_loop (suppliers : list supplier) (remaining : Q) : list supplier :=
  match suppliers with
  | [] => []
  | s :: rest =>
      let available := dict_get s "stock_tons" 0 in
      if Qleb available 0 then split_loop rest remaining
      else
        let allocation := Qmin available remaining in
        if Qltb 0 allocation then
          let remaining' := remaining - allocation in
          split_supplier s allocation ::
            (if Qleb remaining' 0 then [] else split_loop rest remaining')
        else
          if Qleb remaining 0 then [] else split_loop rest remaining
  end.

Definition create_split_plan
    (suppliers : list supplier) (required_quantity : Q) : list supplier :=
  match suppliers with
  | [] => []
  | _ => split_loop (take 3 suppliers) required_quantity
  end.

(** ** PricingEngine and EmissionsEstimator *)

Definition CO2_EMISSION_FACTOR : Q := 6 # 100.

(** [random.uniform(a, b)] is [a + (b - a) * random()]; [u] is the draw
    of [random()]. *)
Definition uniform (a b u : Q) : Q := a + (b - a) * u.

Definition apply_price_jitter (base_price min_factor max_factor u : Q) : Q :=
  let jitter := uniform min_factor max_factor u in
  round2 (base_price * jitter).

(** The product is exact here and an exact tie goes to the even
    hundredth; the program rounds its binary64 product (see
    [Binary64.calculate_co2_emissions]). *)
Definition calculate_co2_emissions (quantity_tons distance_km : Q) : Q :=
  round2 (quantity_tons * distance_km * CO2_EMISSION_FACTOR).

(** ** State, clock and exceptions *)

Local Open Scope string_scope.

Inductive exn : Type :=
| ValueError (msg : string)
| FileNotFoundError (msg : string)
| KeyError (key : string)
| HTTPException (status_code : Z) (detail : string).

(** [str(e)]. *)
Definition str_exn (e : exn) : string :=
  match e with
  | ValueError msg => msg
  | FileNotFoundError msg => msg
  | KeyError key => "'" ++ key ++ "'"
  | HTTPException _ detail => detail
  end.

(** A cache entry: the dictionary with the keys ["data"], ["cached_at"]
    and ["expiry"] that [CacheManager.set] stores. *)
Record entry (A : Type) : Type := Entry {
  entry_data : A;
  entry_cached_at : Z;
  entry_expiry : Z
}.
Arguments Entry {A}.
Arguments entry_data {A}.
Arguments entry_cached_at {A}.
Arguments entry_expiry {A}.

(** What [CacheManager.get] returns on a hit. *)
Record hit (A : Type) : Type := Hit {
  hit_data : A;
  hit_cached_at : Z;
  age_seconds : Z;
  cache_hit : bool
}.
Arguments Hit {A}.
Arguments hit_data {A}.
Arguments hit_cached_at {A}.
Arguments age_seconds {A}.
Arguments cache_hit {A}.

(** The contents of a supplier data file: a dictionary whose entry
    ["suppliers"] lists the supplier dictionaries. *)
Abbreviation supplier_data := (gmap string (list supplier)).

(** The mutable state of the process and its clock: [clock n] is the
    value of the [n]-th call of [datetime.utcnow()], [ticks] counts the
    calls made so far. *)
Record world (A : Type) : Type := World {
  clock : nat -> Z;
  ticks : nat;
  _cache : gmap string (entry A);
  _default_ttl : Z;
  _supplier_data_cache : gmap string supplier_data
}.
Arguments World {A}.
Arguments clock {A}.
Arguments ticks {A}.
Arguments _cache {A}.
Arguments _default_ttl {A}.
Arguments _supplier_data_cache {A}.

(** Computations that read the clock, change the state and may raise. *)
Definition M (A R : Type) : Type := world A -> (exn + R) * world A.

Definition ret {A R} (r : R) : M A R := fun w => (inr r, w).

Definition bind {A R S} (m : M A R) (k : R -> M A S) : M A S :=
  fun w =>
    match m w with
    | (inr r, w') => k r w'
    | (inl e, w') => (inl e, w')
    end.

Definition raise {A R} (e : exn) : M A R := fun w => (inl e, w).

(** [try: m except Exception as e: raise handler(e)]. *)
Definition try_except {A R} (m : M A R) (handler : exn -> exn) : M A R :=
  fun w =>
    match m w with
    | (inr r, w') => (inr r, w')
    | (inl e, w') => (inl (handler e), w')
    end.

#[export] Instance M_bind {A} : MBind (M A) := fun R S k m => bind m k.

Definition utcnow {A} : M A Z :=
  fun w => (inr (clock w (ticks w)),
            World (clock w) (S (ticks w)) (_cache w) (_default_ttl w)
                  (_supplier_data_cache w)).

Definition read_cache {A} : M A (gmap string (entry A)) :=
  fun w => (inr (_cache w), w).

Definition write_cache {A} (c : gmap string (entry A)) : M A unit :=
  fun w => (inr tt,
            World (clock w) (ticks w) c (_default_ttl w) (_supplier_data_cache w)).

Definition read_default_ttl {A} : M A Z :=
  fun w => (inr (_default_ttl w), w).

Definition read_supplier_data_cache {A} : M A (gmap string supplier_data) :=
  fun w => (inr (_supplier_data_cache w), w).

Definition write_supplier_data_cache {A} (c : gmap string supplier_data) : M A unit :=
  fun w => (inr tt, World (clock w) (ticks w) (_cache w) (_default_ttl w) c).

(** [timedelta(hours=h)] and [timedelta(minutes=m)], in microseconds. *)
Definition timedelta_hours (h : Z) : Z := (h * 3600000000)%Z.
Definition timedelta_minutes (m : Z) : Z := (m * 60000000)%Z.

(** [int(td.total_seconds())]. *)
Definition total_seconds_int (td : Z) : Z := Z.quot td 1000000.

(** ** ResponseCache *)

(** A keyword argument of a cache key: a string or a number. *)
Inductive kwarg : Type :=
| KStr (s : string)
| KNum (q : Q).

Module CacheManager.
Section CacheManager.
Context {A : Type}.

(** [_generate_key]: the first 16 hexadecimal digits of the SHA-256
    digest of [json.dumps(kwargs, sort_keys=True)]. *)
Variable _generate_key : gmap string kwarg -> string.

Definition get (kwargs : gmap string kwarg) : M A (option (hit A)) :=
  let cache_key := _generate_key kwargs in
  c ← read_cache;
  match c !! cache_key with
  | None => ret None
  | Some entry =>
      let expiry := entry_expiry entry in
      now ← utcnow;
      if (expiry <? now)%Z then
        write_cache (base.delete cache_key c);;
        ret None
      else
        _ ← utcnow;
        let cached_at := entry_cached_at entry in
        now' ← utcnow;
        let age_seconds := total_seconds_int (now' - cached_at) in
        ret (Some (Hit (entry_data entry) cached_at age_seconds true))
  end.

Definition set (data : A) (ttl_hours : option Z) (kwargs : gmap string kwarg)
  : M A unit :=
  let cache_key := _generate_key kwargs in
  default_ttl ← read_default_ttl;
  let ttl :=
    match ttl_hours with
    | Some h => if (h =? 0)%Z then default_ttl else timedelta_hours h
    | None => default_ttl
    end in
  cached_at ← utcnow;
  now ← utcnow;
  c ← read_cache;
  write_cache (<[cache_key := Entry data cached_at (now + ttl)%Z]> c).

Definition clear : M A unit := write_cache ∅.

Definition delete (kwargs : gmap string kwarg) : M A unit :=
  let cache_key := _generate_key kwargs in
  c ← read_cache;
  match c !! cache_key with
  | Some _ => write_cache (base.delete cache_key c)
  | None => ret tt
  end.

End CacheManager.
End CacheManager.

(** [CacheManager(default_ttl_hours)] at start-up, with the clock of the
    run. *)
Definition new_world {A} (clk : nat -> Z) (default_ttl_hours : Z) : world A :=
  World clk 0 ∅ (timedelta_hours default_ttl_hours) ∅.

(** ** SupplierCatalog *)

(** [str.lower()] on ASCII letters: on a string of ASCII characters
    (see [isascii]) this is [str.lower()]; other characters are left as
    they are, where Python maps some of them too. *)
Definition lower_ascii (c : ascii) : ascii :=
  let n := nat_of_ascii c in
  if (65 <=? n)%nat && (n <=? 90)%nat then ascii_of_nat (n + 32) else c.

Fixpoint lower (s : string) : string :=
  match s with
  | EmptyString => EmptyString
  | String c s' => String (lower_ascii c) (lower s')
  end.

(** [s[-n:]]. *)
Definition last_chars (n : nat) (s : string) : string :=
  substring (String.length s - n) n s.

Definition MATERIAL_FILE_MAP : gmap string string :=
  list_to_map
    [("cement_opc_53", "cement_suppliers_mock.json");
     ("cement", "cement_suppliers_mock.json");
     ("sand_river", "sand_suppliers_mock.json");
     ("sand", "sand_suppliers_mock.json");
     ("aggregate_20mm", "aggregate_suppliers_mock.json");
     ("aggregate", "aggregate_suppliers_mock.json");
     ("gravel", "aggregate_suppliers_mock.json");
     ("bricks_red", "bricks_suppliers_mock.json");
     ("bricks", "bricks_suppliers_mock.json")].

(** What opening and parsing a data file gives: the two failures that
    [load_supplier_data] handles, and the parsed contents.  Other
    failures of the operating system or of the decoding pass through
    the function unchanged and are no part of the model. *)
Inductive file_result : Type :=
| NoSuchFile
| InvalidJSON (err : string)
| Parsed (data : supplier_data).

(** ** Requests, responses and settings *)

Record Origin : Type := {
  latitude : Q;
  longitude : Q
}.

Record Settings : Type := {
  USE_MOCK : bool;
  SOURCE_MODE : string;
  CACHE_TTL_HOURS : Z
}.

Definition default_settings : Settings :=
  {| USE_MOCK := true; SOURCE_MODE := "sandbox"; CACHE_TTL_HOURS := 24 |}.

Record Provenance : Type := {
  provider : string;
  cache : bool;
  cache_age_seconds : option Z;
  request_id : string;
  generated_at : Z;
  sources : list string
}.

Record SupplierSearchRequest : Type := {
  search_origin : Origin;
  material : string;
  quantity_tons : Q
}.

Record SupplierBundle : Type := {
  bundle_origin : Origin;
  bundle_material : string;
  bundle_quantity_tons : Q;
  suppliers : list supplier;
  recommended : option supplier;
  ranking_criteria : list string;
  provenance : Provenance
}.

Record RouteRequest : Type := {
  route_origin : Origin;
  destination : gmap string Q;
  route_quantity_tons : option Q
}.

Record RouteETA : Type := {
  route_id : string;
  eta_origin : Origin;
  eta_destination : gmap string Q;
  distance_km : Q;
  duration_minutes : Z;
  eta : Z;
  co2_kg : Q;
  route_quality : string;
  eta_provenance : Provenance
}.

(** The number-valued fields of the [Supplier] schema. *)
Definition supplier_fields : list string :=
  ["stock_tons"; "price_inr_per_ton"; "lead_time_days"; "latitude";
   "longitude"; "rating"; "distance_km"].

(** The [Supplier] model built from the unpacked dictionary [d], when
    [d] validates: the schema ignores the keys it does not declare.  A
    dictionary that does not validate (a required field missing, a
    bound broken) makes the program raise instead; the properties of the
    search speak of the bundles that it returns. *)
Definition Supplier (d : supplier) : supplier :=
  filter (fun kv : string * Q => kv.1 ∈ supplier_fields) d.

(** ** ProcurementOrchestrator *)

Section Routes.

(** The environment of the routes: the distance function (see
    [GeoMath.haversine_distance]), the key derivation of the cache, the
    data directory and its files, the settings, and the [%Y%m%d] format
    of a date. *)
Variable haversine_distance : Q -> Q -> Q -> Q -> Q.
Variable _generate_key : gmap string kwarg -> string.
Variable current_dir : string.
Variable read_file : string -> file_result.
Variable settings : Settings.
Variable strftime_Ymd : Z -> string.

Definition load_supplier_data {A} (material_id : string) : M A supplier_data :=
  let material_key := lower material_id in
  loaded ← read_supplier_data_cache;
  match loaded !! material_key with
  | Some data => ret data
  | None =>
      match MATERIAL_FILE_MAP !! material_key with
      | None => raise (ValueError ("Unknown material_id: " ++ material_id))
      | Some filename =>
          let file_path := current_dir ++ "/data/" ++ filename in
          match read_file file_path with
          | Parsed data =>
              write_supplier_data_cache (<[material_key := data]> loaded);;
              ret data
          | NoSuchFile =>
              raise (FileNotFoundError
                       ("Supplier data file not found: " ++ file_path))
          | InvalidJSON err =>
              raise (ValueError ("Invalid JSON in supplier data file: " ++ err))
          end
      end
  end.

(** [d[key]]. *)
Definition getitem {A} (d : supplier) (key : string) : M A Q :=
  match d !! key with
  | Some v => ret v
  | None => raise (KeyError key)
  end.

(** [[f(x) for x in l]] for an [f] that may raise. *)
Fixpoint for_each {A X Y} (f : X -> M A Y) (l : list X) : M A (list Y) :=
  match l with
  | [] => ret []
  | x :: l' => y ← f x; ys ← for_each f l'; ret (y :: ys)
  end.

Definition provider_label : string :=
  if String.eqb (SOURCE_MODE settings) "sandbox" then "mock-sandbox" else "live-api".

Definition cache_key_params (request : SupplierSearchRequest) : gmap string kwarg :=
  list_to_map
    [("endpoint", KStr "suppliers_search");
     ("material", KStr (material request));
     ("lat", KNum (round4 (latitude (search_origin request))));
     ("lon", KNum (round4 (longitude (search_origin request))));
     ("qty", KNum (quantity_tons request))].

(** The [except] clauses of [search_suppliers]. *)
Definition search_handler (e : exn) : exn :=
  match e with
  | FileNotFoundError _ => HTTPException 404 (str_exn e)
  | ValueError _ => HTTPException 400 (str_exn e)
  | _ => HTTPException 500 ("Internal error: " ++ str_exn e)
  end.

(** The body of the [try] block of [search_suppliers]. *)
Definition search_miss (request : SupplierSearchRequest) (request_id : string)
  : M SupplierBundle SupplierBundle :=
  supplier_data ← load_supplier_data (material request);
  let suppliers_list := default [] (supplier_data !! "suppliers") in
  let origin_lat := latitude (search_origin request) in
  let origin_lon := longitude (search_origin request) in
  enriched_suppliers ←
    for_each (fun supplier : supplier =>
                lat ← getitem supplier "latitude";
                lon ← getitem supplier "longitude";
                ret (<["distance_km" :=
                         haversine_distance origin_lat origin_lon lat lon]>
                       supplier))
             suppliers_list;
  let ranked := rank_suppliers enriched_suppliers None in
  let eligible := filter_eligible_suppliers ranked (quantity_tons request) in
  let recommended :=
    match eligible with
    | best :: _ => Some (Supplier best)
    | [] =>
        match ranked with
        | [] => None
        | _ =>
            match create_split_plan ranked (quantity_tons request) with
            | first :: _ => Some (Supplier first)
            | [] => None
            end
        end
    end in
  let all_suppliers := map Supplier ranked in
  now ← utcnow;
  let provenance :=
    {| provider := provider_label;
       cache := false;
       cache_age_seconds := None;
       request_id := request_id;
       generated_at := now;
       sources := ["mock-suppliers-db"; "haversine-distance-calc"] |} in
  let response :=
    {| bundle_origin := search_origin request;
       bundle_material := material request;
       bundle_quantity_tons := quantity_tons request;
       suppliers := all_suppliers;
       recommended := recommended;
       ranking_criteria := ["distance"; "price"; "lead_time"];
       provenance := provenance |} in
  CacheManager.set _generate_key response (Some (CACHE_TTL_HOURS settings))
                   (cache_key_params request);;
  ret response.

(** The cached bundle with its provenance marked as a hit. *)
Definition mark_hit (data : SupplierBundle) (age : Z) (request_id : string)
  : SupplierBundle :=
  {| bundle_origin := bundle_origin data;
     bundle_material := bundle_material data;
     bundle_quantity_tons := bundle_quantity_tons data;
     suppliers := suppliers data;
     recommended := recommended data;
     ranking_criteria := ranking_criteria data;
     provenance :=
       {| provider := provider (provenance data);
          cache := true;
          cache_age_seconds := Some age;
          request_id := request_id;
          generated_at := generated_at (provenance data);
          sources := sources (provenance data) |} |}.

(** [search_suppliers]; [request_id] is the identifier that
    [generate_request_id()] draws.  On a hit the route updates the
    provenance of the cached dictionary in place, so the stored entry
    changes with it. *)
Definition search_suppliers (request : SupplierSearchRequest) (request_id : string)
  : M SupplierBundle SupplierBundle :=
  let miss := try_except (search_miss request request_id) search_handler in
  cached ← CacheManager.get _generate_key (cache_key_params request);
  match cached with
  | Some h =>
      if USE_MOCK settings then
        let data := mark_hit (hit_data h) (age_seconds h) request_id in
        c ← read_cache;
        write_cache
          (alter (fun e => Entry data (entry_cached_at e) (entry_expiry e))
                 (_generate_key (cache_key_params request)) c);;
        ret data
      else miss
  | None => miss
  end.

(** The [except] clauses of [calculate_route_eta]. *)
Definition route_handler (e : exn) : exn :=
  match e with
  | HTTPException _ _ => e
  | _ => HTTPException 500 ("Internal error: " ++ str_exn e)
  end.

(** [calculate_route_eta]; the entry ["name"] of the destination is a
    string and is left out of the destination echoed in the response.
    The [RouteETA] schema refuses a negative distance, duration or CO2
    estimate, and the program then answers with the error 500 instead
    of the estimate built here; the duration is the whole part of the
    exact quotient, which the binary64 quotient can miss by one (see
    [Binary64.int]). *)
Definition calculate_route_eta {A} (request : RouteRequest) (request_id : string)
  : M A RouteETA :=
  try_except
    (let dest_lat := destination request !! "latitude" in
     let dest_lon := destination request !! "longitude" in
     match dest_lat, dest_lon with
     | Some dest_lat, Some dest_lon =>
         let distance :=
           haversine_distance (latitude (route_origin request))
                              (longitude (route_origin request))
                              dest_lat dest_lon in
         let avg_speed_kmh := 40 in
         let duration_hours := distance / avg_speed_kmh in
         let duration_minutes := Qtrunc (duration_hours * 60) in
         now ← utcnow;
         let eta := (now + timedelta_minutes duration_minutes)%Z in
         let co2_kg :=
           match route_quantity_tons request with
           | Some q =>
               if truthy q then calculate_co2_emissions q distance
               else calculate_co2_emissions 10 distance
           | None => calculate_co2_emissions 10 distance
           end in
         let route_quality :=
           if Qltb distance 10 then "optimal"
           else if Qltb distance 30 then "good"
           else "fair" in
         today ← utcnow;
         let route_id :=
           "ROUTE-" ++ strftime_Ymd today ++ "-" ++ last_chars 6 request_id in
         generated ← utcnow;
         let provenance :=
           {| provider := provider_label;
              cache := false;
              cache_age_seconds := None;
              request_id := request_id;
              generated_at := generated;
              sources := ["mock-routing-engine"; "haversine-distance";
                          "co2-calculator"] |} in
         ret {| route_id := route_id;
                eta_origin := route_origin request;
                eta_destination :=
                  <["longitude" := dest_lon]> (<["latitude" := dest_lat]> ∅);
                distance_km := distance;
                duration_minutes := duration_minutes;
                eta := eta;
                co2_kg := co2_kg;
                route_quality := route_quality;
                eta_provenance := provenance |}
     | _, _ =>
         raise (HTTPException 400
                  "Destination must include 'latitude' and 'longitude'")
     end)
    route_handler.

End Routes.

(** ** GeoMath *)

Module GeoMath.

Local Open Scope R_scope.

Definition EARTH_RADIUS_KM : R := 6371.

(** [math.radians]. *)
Definition radians (x : R) : R := x * (PI / 180).

(** [math.atan2(y, x)]: the angle of the point [(x, y)], in [(-PI, PI]]. *)
Definition atan2 (y x : R) : R :=
  if Rlt_dec 0 x then atan (y / x)
  else if Rlt_dec x 0 then
    if Rle_dec 0 y then atan (y / x) + PI else atan (y / x) - PI
  else if Rlt_dec 0 y then PI / 2
  else if Rlt_dec y 0 then - (PI / 2)
  else 0.

(** [round(x)] and [round(x, 2)] on a real number. *)
Definition round_half_even (x : R) : Z :=
  let f := Zfloor x in
  let r := x - IZR f in
  if Rlt_dec r (1 / 2) then f
  else if Rlt_dec (1 / 2) r then (f + 1)%Z
  else if Z.even f then f else (f + 1)%Z.

Definition round2 (x : R) : R := IZR (round_half_even (x * 100)) / 100.

(** [haversine_distance]; the [lru_cache] around it memoises a pure
    function and does not change its values.  Over the real numbers
    the two square roots are defined for all points; on binary64 the
    term [a] can pass 1, and [math.sqrt] then raises (see
    [Binary64.haversine_sqrt_1_a]). *)
Definition haversine_distance (lat1 lon1 lat2 lon2 : R) : R :=
  let lat1_rad := radians lat1 in
  let lat2_rad := radians lat2 in
  let delta_lat := radians (lat2 - lat1) in
  let delta_lon := radians (lon2 - lon1) in
  let sin_dlat_2 := sin (delta_lat / 2) in
  let sin_dlon_2 := sin (delta_lon / 2) in
  let a := sin_dlat_2 * sin_dlat_2
           + cos lat1_rad * cos lat2_rad * sin_dlon_2 * sin_dlon_2 in
  let c := 2 * atan2 (sqrt a) (sqrt (1 - a)) in
  round2 (EARTH_RADIUS_KM * c).

(** What the specification compares the function with.  The central
    angle between two points of a sphere given by latitude and longitude
    in degrees (spherical law of cosines), and the great-circle distance
    on a sphere of radius [radius], the length of the arc that this
    angle subtends. *)
Definition central_angle (lat1 lon1 lat2 lon2 : R) : R :=
  acos (sin (radians lat1) * sin (radians lat2)
        + cos (radians lat1) * cos (radians lat2)
          * cos (radians lon2 - radians lon1)).

Definition great_circle_distance (radius lat1 lon1 lat2 lon2 : R) : R :=
  radius * central_angle lat1 lon1 lat2 lon2.

End GeoMath.

(** ** Vocabulary of the statements

    The orders and quantities the specification speaks of, written from
    its words so that the properties can compare the code with them,
    and a few abbreviations of expressions of the code. *)

(** The stock the code reads off a supplier. *)
Definition stock (s : supplier) : Q := dict_get s "stock_tons" 0.

(** A number of whole hundredths: one that [round(x, 2)] leaves as it
    is. *)
Definition hundredths (q : Q) : Prop := round2 q == q.



(** The order of the specification on key components: numbers by
    value, a missing value as [+infinity], above every number and equal
    to itself. *)
Definition item_lt (a b : item) : Prop :=
  match a, b with
  | Num x, Num y => x < y
  | Num _, PosInf => True
  | PosInf, _ => False
  end.

Definition item_eq (a b : item) : Prop :=
  match a, b with
  | Num x, Num y => x == y
  | PosInf, PosInf => True
  | _, _ => False
  end.

Definition item_le (a b : item) : Prop := item_lt a b \/ item_eq a b.

(** The lexicographic order on tuples of key components. *)
Fixpoint tuple_le (x y : list item) : Prop :=
  match x, y with
  | [], _ => True
  | _ :: _, [] => False
  | a :: x', b :: y' => item_lt a b \/ (item_eq a b /\ tuple_le x' y')
  end.

(** The value of a ranking criterion: a supplier that misses it counts
    as [+infinity]. *)
Definition criterion (s : supplier) (c : string) : item :=
  match s !! c with
  | Some v => Num v
  | None => PosInf
  end.

(** [s] ranks no later than [t]: the order of the tuple
    (distance_km, price_inr_per_ton, lead_time_days). *)
Definition rank_le (s t : supplier) : Prop :=
  item_lt (criterion s "distance_km") (criterion t "distance_km") \/
  (item_eq (criterion s "distance_km") (criterion t "distance_km") /\
   (item_lt (criterion s "price_inr_per_ton") (criterion t "price_inr_per_ton") \/
    (item_eq (criterion s "price_inr_per_ton") (criterion t "price_inr_per_ton") /\
     item_le (criterion s "lead_time_days") (criterion t "lead_time_days")))).

(** [s] and [t] tie on the three criteria. *)
Definition same_rank (s t : supplier) : bool :=
  item_eqb (criterion s "distance_km") (criterion t "distance_km")
  && item_eqb (criterion s "price_inr_per_ton") (criterion t "price_inr_per_ton")
  && item_eqb (criterion s "lead_time_days") (criterion t "lead_time_days").

(** The time-to-live that [CacheManager.set] gives an entry, in
    microseconds: [if ttl_hours] fails on [None] and on [0]. *)
Definition effective_ttl {A} (w : world A) (ttl_hours : option Z) : Z :=
  match ttl_hours with
  | Some h => if (h =? 0)%Z then _default_ttl w else timedelta_hours h
  | None => _default_ttl w
  end.

(** A client error is an HTTP error with a status from 400 to 499. *)
Definition client_error (e : exn) : Prop :=
  match e with
  | HTTPException status _ => (400 <= status < 500)%Z
  | _ => False
  end.

(** The response cache holds no usable entry under [key]: none at all,
    or one whose expiry time is before the next clock reading. *)
Definition no_live_entry {A} (w : world A) (key : string) : Prop :=
  match _cache w !! key with
  | None => True
  | Some e => (entry_expiry e < clock w (ticks w))%Z
  end.

(** The loaded supplier data only holds materials of the file map:
    [load_supplier_data] is the one writer of [_supplier_data_cache]. *)
Definition loaded_materials_known {A} (w : world A) : Prop :=
  forall key, is_Some (_supplier_data_cache w !! key) ->
              is_Some (MATERIAL_FILE_MAP !! key).

(** [m] keeps the property [P] of the state, whatever it returns. *)
Definition preserves {A R} (P : world A -> Prop) (m : M A R) : Prop :=
  forall w, P w -> P (m w).2.

(** ** Sample data of the examples *)

(** The route request of the schema's example, with a quantity to
    choose. *)
Definition example_route (quantity : option Q) : RouteRequest :=
  {| route_origin := {| latitude := 173352 # 10000; longitude := 784537 # 10000 |};
     destination := {["latitude" := 173345 # 10000; "longitude" := 784512 # 10000]};
     route_quantity_tons := quantity |}.

(** The route on [example_route] when the distance function returns
    [distance], at the start of a run whose clock stands at 0. *)
Definition example_eta (distance : Q) (quantity : option Q) : exn + RouteETA :=
  (calculate_route_eta (A := unit) (fun _ _ _ _ => distance) default_settings
     (fun _ => "20251108") (example_route quantity) "req-000000abcdef"
     (new_world (fun _ => 0%Z) 24)).1.

(** A catalogue of two cement suppliers, a stand-in for the distance
    (the sum of the coordinate differences, rounded to 2 decimals), and
    a search for 50 tons of cement at the start of a run. *)
Definition example_catalogue : supplier_data :=
  {["suppliers" :=
      [ {["latitude" := 20; "longitude" := 80; "stock_tons" := 500;
          "price_inr_per_ton" := 6500; "lead_time_days" := 3;
          "rating" := 4]};
        {["latitude" := 18; "longitude" := 79; "stock_tons" := 200;
          "price_inr_per_ton" := 6800; "lead_time_days" := 2;
          "rating" := 9 # 2]} ]]}.

Definition example_distance (lat1 lon1 lat2 lon2 : Q) : Q :=
  round2 (Qabs (lat2 - lat1) + Qabs (lon2 - lon1)).

Definition example_search : (exn + SupplierBundle) * world SupplierBundle :=
  search_suppliers example_distance (fun _ => "key") "/srv"
    (fun _ => Parsed example_catalogue) default_settings
    {| search_origin := {| latitude := 17; longitude := 78 |};
       material := "Cement"; quantity_tons := 50 |}
    "req-000000000000" (new_world (fun _ => 0%Z) 24).

(** Four suppliers: [sample_b] and [sample_d] tie on the three criteria
    and differ in rating, [sample_c] has no distance. *)
Definition sample_a : supplier :=
  {["distance_km" := 5; "price_inr_per_ton" := 100; "lead_time_days" := 2;
    "stock_tons" := 30]}.

Definition sample_b : supplier :=
  {["distance_km" := 3; "price_inr_per_ton" := 200; "lead_time_days" := 1;
    "stock_tons" := 0; "rating" := 4]}.

Definition sample_c : supplier :=
  {["price_inr_per_ton" := 50; "lead_time_days" := 1; "stock_tons" := 40]}.

Definition sample_d : supplier :=
  {["distance_km" := 3; "price_inr_per_ton" := 200; "lead_time_days" := 1;
    "stock_tons" := 20; "rating" := 5]}.

(** ** Further functions of the core *)

Definition AVG_SPEED_KM_PER_DAY : Q := 300.

(** [estimate_delivery_eta]: [max(0.5, x)] is [x] when [x] is larger
    than [0.5], and [int(math.ceil(x))] is the ceiling. *)
Definition estimate_delivery_eta (distance_km : Q) (base_lead_time_days : Z) : Z :=
  let travel_days := Qmax (1 # 2) (distance_km / AVG_SPEED_KM_PER_DAY) in
  (base_lead_time_days + Qceiling travel_days)%Z.

(** What [CacheManager.get_stats] returns. *)
Record CacheStats : Type := {
  total_entries : Z;
  active_entries : Z;
  expired_entries : Z;
  ttl_hours : Q
}.

(** [CacheManager.get_stats]: one reading of the clock, then one pass
    over the entries that counts those whose expiry time is before it;
    [ttl_hours] is the default TTL in seconds divided by 3600. *)
Definition get_stats {A} : M A CacheStats :=
  c ← read_cache;
  let total_entries := Z.of_nat (size c) in
  now ← utcnow;
  let expired :=
    Z.of_nat (size (filter (fun kv : string * entry A =>
                              (entry_expiry kv.2 < now)%Z) c)) in
  default_ttl ← read_default_ttl;
  ret {| total_entries := total_entries;
         active_entries := (total_entries - expired)%Z;
         expired_entries := expired;
         ttl_hours := (default_ttl # 1000000) / 3600 |}.

(** ** Further vocabulary *)

(** The stock that a walk over [suppliers] can draw on: the stocks of
    the suppliers that have some. *)
Fixpoint available_stock (suppliers : list supplier) : Q :=
  match suppliers with
  | [] => 0
  | s :: rest =>
      if Qltb 0 (stock s) then stock s + available_stock rest
      else available_stock rest
  end.

(** The total of the [allocated_tons] recorded in a plan. *)
Fixpoint plan_total (plan : list supplier) : Q :=
  match plan with
  | [] => 0
  | e :: rest => dict_get e "allocated_tons" 0 + plan_total rest
  end.

(** Every loaded entry of [_supplier_data_cache] is what the file of its
    material parsed to. *)
Definition loaded_from_files {A}
    (current_dir : string) (read_file : string -> file_result) (w : world A) : Prop :=
  forall key data,
    _supplier_data_cache w !! key = Some data ->
    exists filename,
      MATERIAL_FILE_MAP !! key = Some filename /\
      read_file (current_dir ++ "/data/" ++ filename) = Parsed data.

(** [s] with the distance from the origin added, as the search does for
    every supplier of the catalogue. *)
Definition enriched (distance : Q -> Q -> Q -> Q -> Q) (origin : Origin)
    (s e : supplier) : Prop :=
  exists lat lon,
    s !! "latitude" = Some lat /\ s !! "longitude" = Some lon /\
    e = <["distance_km" := distance (latitude origin) (longitude origin) lat lon]> s.

(** The recommendation of the search for a ranked list: the best
    supplier with enough stock, else the first entry of the split plan,
    each as a [Supplier]. *)
Definition recommend (ranked : list supplier) (required_quantity : Q)
  : option supplier :=
  match filter_eligible_suppliers ranked required_quantity with
  | best :: _ => Some (Supplier best)
  | [] =>
      match ranked with
      | [] => None
      | _ =>
          match create_split_plan ranked required_quantity with
          | first :: _ => Some (Supplier first)
          | [] => None
          end
      end
  end.

(** The bundle that [search_suppliers] assembles on a miss from the
    suppliers with their distances and the reading of the clock. *)
Definition fresh_bundle (settings : Settings) (request : SupplierSearchRequest)
    (request_id : string) (enriched_suppliers : list supplier) (now : Z)
  : SupplierBundle :=
  let ranked := rank_suppliers enriched_suppliers None in
  {| bundle_origin := search_origin request;
     bundle_material := material request;
     bundle_quantity_tons := quantity_tons request;
     suppliers := map Supplier ranked;
     recommended := recommend ranked (quantity_tons request);
     ranking_criteria := ["distance"; "price"; "lead_time"];
     provenance :=
       {| provider := provider_label settings;
          cache := false;
          cache_age_seconds := None;
          request_id := request_id;
          generated_at := now;
          sources := ["mock-suppliers-db"; "haversine-distance-calc"] |} |}.

(** ** Further sample data *)

(** A cache that holds the one entry ["bundle"], stored with [ttl_hours]
    at the start of a run whose clock advances by [step] microseconds
    per reading. *)
Definition sample_cache (step : Z) (ttl_hours : Z) : world string :=
  (CacheManager.set (fun _ => "key") "bundle" (Some ttl_hours) ∅
     (new_world (fun n => (Z.of_nat n * step)%Z) 24)).2.

(** The request of [example_search], a catalogue whose supplier lacks
    its coordinates, and a response cache that holds one live entry for
    the request. *)
Definition sample_request : SupplierSearchRequest :=
  {| search_origin := {| latitude := 17; longitude := 78 |};
     material := "Cement"; quantity_tons := 50 |}.

Definition sample_bad_catalogue : supplier_data :=
  {["suppliers" := [ {["stock_tons" := 500; "price_inr_per_ton" := 6500]} ]]}.

Definition sample_live_world : world SupplierBundle :=
  World (fun _ => 0%Z) 0
        {["key" := Entry (fresh_bundle default_settings sample_request
                                       "req-000000000000" [] 0)
                         0 (timedelta_hours 24)]}
        (timedelta_hours 24) ∅.

(** [s] and [t] tie on [criteria]: neither key is smaller than the
    other. *)
Definition tied (criteria : list string) (s t : supplier) : bool :=
  negb (tuple_ltb (sort_key criteria s) (sort_key criteria t))
  && negb (tuple_ltb (sort_key criteria t) (sort_key criteria s)).

(** ** ASCII strings *)

(** [s.isascii()].  A [str] is modelled by its bytes; on a string of
    ASCII characters [lower] is [str.lower()], which maps other
    characters too (the Kelvin sign to [k]). *)
Definition isascii (s : string) : bool :=
  forallb (fun c => (nat_of_ascii c <? 128)%nat) (list_ascii_of_string s).

(** ** Binary64

    The arithmetic of the program on its own numbers: [float] is the
    binary64 type of the kernel, and its operations round as the
    processor's do.  These definitions serve to evaluate the code on
    concrete inputs where the exact model and the program differ. *)
Module Binary64.

(** The exact value of a finite number. *)
Definition value (x : float) : option Q :=
  match FloatOps.Prim2SF x with
  | SpecFloat.S754_zero _ => Some 0
  | SpecFloat.S754_finite s m e =>
      let v := inject_Z (Zpos m) * Qpower 2 e in
      Some (if s then - v else v)
  | _ => None
  end.

(** The number nearest to an integer. *)
Definition of_Z (n : Z) : float :=
  if (n <? 0)%Z then PrimFloat.opp (PrimFloat.of_uint63 (Uint63.of_Z (- n)))
  else PrimFloat.of_uint63 (Uint63.of_Z n).

(** [int(x)]. *)
Definition int (x : float) : option Z := option_map Qtrunc (value x).

(** [round(x, 2)]: CPython rounds the exact value of [x] to 2 decimals,
    a tie going to the even neighbour, and returns the number nearest
    to that decimal. *)
Definition round2 (x : float) : float :=
  match value x with
  | Some v => PrimFloat.div (of_Z (round_half_even (v * 100))) 100
  | None => x
  end.

#[warnings="-inexact-float"]
Definition CO2_EMISSION_FACTOR : float := 0.06.

Definition calculate_co2_emissions (quantity_tons distance_km : float) : float :=
  round2 (quantity_tons * distance_km * CO2_EMISSION_FACTOR)%float.

(** [math.sqrt], which raises on a negative argument. *)
Definition math_sqrt (x : float) : exn + float :=
  if PrimFloat.ltb x 0 then inl (ValueError "math domain error")
  else inr (PrimFloat.sqrt x).

(** The term [a] of [haversine_distance] and the argument of its second
    square root, from the values of [math.sin] and [math.cos]. *)
Definition haversine_a (sin_dlat_2 cos_lat1 cos_lat2 sin_dlon_2 : float) : float :=
  (sin_dlat_2 * sin_dlat_2 + cos_lat1 * cos_lat2 * sin_dlon_2 * sin_dlon_2)%float.

Definition haversine_sqrt_1_a (sin_dlat_2 cos_lat1 cos_lat2 sin_dlon_2 : float)
  : exn + float :=
  math_sqrt (1 - haversine_a sin_dlat_2 cos_lat1 cos_lat2 sin_dlon_2)%float.

End Binary64.

(** ** Further sample data *)

(** The search of [example_search] for another material and other data
    files. *)
Definition sample_search (read_file : string -> file_result) (material : string)
  : exn + SupplierBundle :=
  (search_suppliers example_distance (fun _ => "key") "/srv" read_file
     default_settings
     {| search_origin := {| latitude := 17; longitude := 78 |};
        material := material; quantity_tons := 50 |}
     "req-000000000000" (new_world (fun _ => 0%Z) 24)).1.

(** * Properties *)

(** ** Numbers *)

Ltac Qcompare_cases a b :=
  let E := fresh "E" in
  destruct (Qcompare a b) eqn:E;
  [apply Qeq_alt in E | apply Qlt_alt in E | apply Qgt_alt in E].

Lemma Qltb_lt a b : Qltb a b = true <-> a < b.
Proof. unfold Qltb. Qcompare_cases a b; split; intros; try congruence; lra. Qed.

Lemma Qltb_ge a b : Qltb a b = false <-> b <= a.
Proof. unfold Qltb. Qcompare_cases a b; split; intros; try congruence; lra. Qed.

Lemma Qleb_le a b : Qleb a b = true <-> a <= b.
Proof. unfold Qleb. Qcompare_cases a b; split; intros; try congruence; lra. Qed.

Lemma Qleb_gt a b : Qleb a b = false <-> b < a.
Proof. unfold Qleb. Qcompare_cases a b; split; intros; try congruence; lra. Qed.

Lemma Qmin_cases a b :
  (a <= b /\ Qmin a b = a) \/ (b < a /\ Qmin a b = b).
Proof.
  unfold Qmin, GenericMinMax.gmin. destruct (Qcompare a b) eqn:E.
  - left. apply Qeq_alt in E. split; [lra | reflexivity].
  - left. apply Qlt_alt in E. split; [lra | reflexivity].
  - right. apply Qgt_alt in E. split; [lra | reflexivity].
Qed.

(** *** Rounding *)

Lemma round_half_even_bounds q :
  inject_Z (round_half_even q) - (1 # 2) <= q /\
  q <= inject_Z (round_half_even q) + (1 # 2).
Proof.
  unfold round_half_even.
  pose proof (Qfloor_le q) as Hlo. pose proof (Qlt_floor q) as Hhi.
  rewrite inject_Z_plus in Hhi. change (inject_Z 1) with 1 in Hhi.
  destruct (Qcompare (q - inject_Z (Qfloor q)) (1 # 2)) eqn:E.
  - apply Qeq_alt in E. destruct (Z.even (Qfloor q)).
    + split; lra.
    + rewrite inject_Z_plus. change (inject_Z 1) with 1. split; lra.
  - apply Qlt_alt in E. split; lra.
  - apply Qgt_alt in E. rewrite inject_Z_plus. change (inject_Z 1) with 1.
    split; lra.
Qed.

#[export] Instance round_half_even_proper : Proper (Qeq ==> eq) round_half_even.
Proof.
  intros x y Hxy. unfold round_half_even.
  rewrite (Qfloor_comp x y Hxy).
  assert (E : Qcompare (x - inject_Z (Qfloor y)) (1 # 2)
              = Qcompare (y - inject_Z (Qfloor y)) (1 # 2)).
  { apply Qcompare_comp; [rewrite Hxy|]; reflexivity. }
  rewrite E. reflexivity.
Qed.

Lemma round_half_even_Z z : round_half_even (inject_Z z) = z.
Proof.
  unfold round_half_even. rewrite Qfloor_Z.
  assert (E : Qcompare (inject_Z z - inject_Z z) (1 # 2) = Lt).
  { rewrite <- Qlt_alt. lra. }
  rewrite E. reflexivity.
Qed.

Lemma round_half_even_mono x y :
  x <= y -> (round_half_even x <= round_half_even y)%Z.
Proof.
  intros Hxy. pose proof (Qfloor_resp_le x y Hxy) as Hf.
  destruct (Z.eq_dec (Qfloor x) (Qfloor y)) as [Heq | Hne].
  - unfold round_half_even. rewrite Heq.
    destruct (Qcompare (x - inject_Z (Qfloor y)) (1 # 2)) eqn:Ex;
      destruct (Qcompare (y - inject_Z (Qfloor y)) (1 # 2)) eqn:Ey;
      try (destruct (Z.even (Qfloor y))); try lia;
      repeat match goal with
        | H : Qcompare _ _ = Eq |- _ => apply Qeq_alt in H
        | H : Qcompare _ _ = Lt |- _ => apply Qlt_alt in H
        | H : Qcompare _ _ = Gt |- _ => apply Qgt_alt in H
        end; lra.
  - assert (Hx : (round_half_even x <= Qfloor x + 1)%Z).
    { unfold round_half_even.
      destruct (Qcompare _ _); try destruct (Z.even _); lia. }
    assert (Hy : (Qfloor y <= round_half_even y)%Z).
    { unfold round_half_even.
      destruct (Qcompare _ _); try destruct (Z.even _); lia. }
    lia.
Qed.

Lemma round2_eq q : round2 q == inject_Z (round_half_even (q * 100)) / 100.
Proof.
  unfold round2. rewrite Qred_correct. unfold Qeq, Qdiv, inject_Z. simpl. lia.
Qed.

#[export] Instance round2_proper : Proper (Qeq ==> Qeq) round2.
Proof.
  intros x y Hxy. rewrite !round2_eq.
  assert (E : x * 100 == y * 100) by (rewrite Hxy; reflexivity).
  rewrite (round_half_even_proper _ _ E). reflexivity.
Qed.

(** Rounding to cents moves a value by at most half a cent. *)
Lemma round2_error q : q - (1 # 200) <= round2 q /\ round2 q <= q + (1 # 200).
Proof.
  rewrite round2_eq.
  destruct (round_half_even_bounds (q * 100)) as [Hlo Hhi].
  set (n := inject_Z (round_half_even (q * 100))) in *.
  split.
  - apply Qle_shift_div_l; lra.
  - apply Qle_shift_div_r; lra.
Qed.

Lemma round2_mono x y : x <= y -> round2 x <= round2 y.
Proof.
  intros Hxy. rewrite !round2_eq.
  assert (H : x * 100 <= y * 100) by lra.
  apply round_half_even_mono in H.
  rewrite Zle_Qle in H.
  apply Qle_shift_div_l; [lra|].
  assert (E : inject_Z (round_half_even (x * 100)) / 100 * 100
              == inject_Z (round_half_even (x * 100))) by (field).
  rewrite E. exact H.
Qed.

(** A value that already is a whole number of hundredths is unchanged. *)
Lemma round2_hundredths z : round2 (inject_Z z / 100) == inject_Z z / 100.
Proof.
  rewrite round2_eq.
  assert (E : inject_Z z / 100 * 100 == inject_Z z) by field.
  rewrite (round_half_even_proper _ _ E), round_half_even_Z. reflexivity.
Qed.



Lemma truthy_true q : truthy q = true <-> ~ q == 0.
Proof.
  unfold truthy. rewrite negb_true_iff. split.
  - intros H Hq. apply Qeq_bool_iff in Hq. congruence.
  - intros H. destruct (Qeq_bool q 0) eqn:E; [|reflexivity].
    apply Qeq_bool_iff in E. contradiction.
Qed.


Lemma hundredths_iff q : hundredths q <-> exists z, q == inject_Z z / 100.
Proof.
  unfold hundredths. split.
  - intros H. exists (round_half_even (q * 100)).
    rewrite <- round2_eq. symmetry. exact H.
  - intros [z Hz]. rewrite Hz. apply round2_hundredths.
Qed.

Lemma hundredths_minus x y : hundredths x -> hundredths y -> hundredths (x - y).
Proof.
  rewrite !hundredths_iff. intros [n Hn] [m Hm]. exists (n - m)%Z.
  rewrite Hn, Hm. unfold Zminus. rewrite inject_Z_plus, inject_Z_opp. field.
Qed.

(** ** Eligibility filter *)

Section FilterEligible.
Variable required_quantity : Q.

Let eligible (s : supplier) : Prop :=
  required_quantity <= dict_get s "stock_tons" 0.

Lemma filter_eligible_In s suppliers :
  In s (filter_eligible_suppliers suppliers required_quantity) <->
  In s suppliers /\ eligible s.
Proof.
  unfold filter_eligible_suppliers, eligible.
  rewrite filter_In, Qleb_le. reflexivity.
Qed.

Lemma filter_eligible_sublist suppliers :
  sublist (filter_eligible_suppliers suppliers required_quantity) suppliers.
Proof.
  unfold filter_eligible_suppliers.
  induction suppliers as [|s l IH]; simpl.
  - constructor.
  - destruct (Qleb _ _); constructor; exact IH.
Qed.

(** Every order-preserving selection of eligible suppliers is already a
    selection of the result: nothing eligible is dropped. *)
Lemma filter_eligible_greatest suppliers kept :
  sublist kept suppliers ->
  Forall eligible kept ->
  sublist kept (filter_eligible_suppliers suppliers required_quantity).
Proof.
  unfold filter_eligible_suppliers.
  induction 1 as [|s k l Hs IH|s k l Hs IH]; intros Hall; simpl.
  - constructor.
  - inversion Hall as [|? ? Hel Hrest]; subst.
    unfold eligible in Hel. apply Qleb_le in Hel. rewrite Hel.
    constructor. apply IH, Hrest.
  - destruct (Qleb _ _); [constructor|]; apply IH, Hall.
Qed.

End FilterEligible.

(** C4.  [filter_eligible_suppliers] returns exactly the suppliers whose
    stock is at least the required quantity, in the order of the input:
    the result is an order-preserving selection of the input, a supplier
    is in it if and only if it is in the input with enough stock, every
    order-preserving selection of suppliers with enough stock is a
    selection of the result, and no supplier of the result has a stock
    below the required quantity.  A supplier without ["stock_tons"]
    counts with stock 0. *)
Theorem filter_eligible_suppliers_exact suppliers required_quantity :
  let kept := filter_eligible_suppliers suppliers required_quantity in
  sublist kept suppliers /\
  (forall s, In s kept <->
             In s suppliers /\ required_quantity <= dict_get s "stock_tons" 0) /\
  (forall kept',
      sublist kept' suppliers ->
      Forall (fun s => required_quantity <= dict_get s "stock_tons" 0) kept' ->
      sublist kept' kept) /\
  (forall s, In s kept -> ~ dict_get s "stock_tons" 0 < required_quantity).
Proof.
  cbv zeta. split; [|split; [|split]].
  - apply filter_eligible_sublist.
  - intros s. apply filter_eligible_In.
  - intros kept' Hsub Hall. apply filter_eligible_greatest; assumption.
  - intros s Hin Hlt. apply filter_eligible_In in Hin as [_ Hge]. lra.
Qed.

Example filter_eligible_suppliers_sample :
  filter_eligible_suppliers [sample_b; sample_d; sample_a; sample_c] 30
  = [sample_a; sample_c].
Proof. reflexivity. Qed.

(** ** Split plan *)

Lemma split_supplier_allocated_tons s a :
  split_supplier s a !! "allocated_tons" = Some (round2 a).
Proof.
  unfold split_supplier.
  rewrite lookup_insert_ne by discriminate. apply lookup_insert_eq.
Qed.

Lemma split_supplier_estimated_cost s a :
  split_supplier s a !! "estimated_cost_inr"
  = Some (round2 (a * dict_get s "price_inr_per_ton" 0)).
Proof. unfold split_supplier. apply lookup_insert_eq. Qed.

(** The annotations are the only entries of the copy that differ from
    the supplier's. *)
Lemma split_supplier_other s a key :
  key <> "allocated_tons" -> key <> "estimated_cost_inr" ->
  split_supplier s a !! key = s !! key.
Proof.
  intros H1 H2. unfold split_supplier.
  rewrite !lookup_insert_ne by congruence. reflexivity.
Qed.




Lemma create_split_plan_loop suppliers required_quantity :
  create_split_plan suppliers required_quantity
  = split_loop (take 3 suppliers) required_quantity.
Proof. destruct suppliers; reflexivity. Qed.



(** 60 tons from the ranked list b, d, a, c: b has no stock, d gives its
    20 tons, a its 30 tons, and c, the fourth of the list, is not
    considered; the plan falls 10 tons short. *)
Example create_split_plan_sample :
  (fun e => e !! "allocated_tons")
    <$> create_split_plan [sample_b; sample_d; sample_a; sample_c] 60
  = [Some 20; Some 30].
Proof. reflexivity. Qed.

(** ** Ranking *)

(** *** A stable insertion sort *)

Section SortedFacts.
Context {A K : Type} (key : A -> K) (ltb : K -> K -> bool).

(** [le a b]: the key of [b] is not smaller than the key of [a]. *)
Let le (a b : A) : Prop := ltb (key b) (key a) = false.

Hypothesis ltb_asym : forall a b, ltb a b = true -> ltb b a = false.
Hypothesis le_trans :
  forall a b c, ltb b a = false -> ltb c b = false -> ltb c a = false.

Lemma insort_perm x l : Permutation (insort key ltb x l) (x :: l).
Proof.
  induction l as [|y l IH]; simpl.
  - reflexivity.
  - destruct (ltb (key y) (key x)).
    + rewrite IH. apply perm_swap.
    + reflexivity.
Qed.

Lemma sorted_perm l : Permutation (sorted key ltb l) l.
Proof.
  induction l as [|x l IH]; simpl.
  - reflexivity.
  - rewrite insort_perm. constructor. exact IH.
Qed.

Lemma insort_sorted x l :
  StronglySorted le l -> StronglySorted le (insort key ltb x l).
Proof.
  induction 1 as [|y l Hl IH Hy]; simpl.
  - repeat constructor.
  - destruct (ltb (key y) (key x)) eqn:E.
    + constructor; [exact IH|].
      eapply Permutation_Forall.
      * symmetry. apply insort_perm.
      * constructor; [|exact Hy]. unfold le. apply ltb_asym, E.
    + constructor; [constructor; assumption|].
      constructor; [exact E|].
      eapply Forall_impl; [exact Hy|].
      intros z Hz. unfold le in *. eapply le_trans; eassumption.
Qed.

Lemma sorted_sorted l : StronglySorted le (sorted key ltb l).
Proof.
  induction l as [|x l IH]; simpl.
  - constructor.
  - apply insort_sorted, IH.
Qed.

Lemma sorted_fixpoint l : StronglySorted le l -> sorted key ltb l = l.
Proof.
  induction 1 as [|x l Hl IH Hx]; simpl.
  - reflexivity.
  - rewrite IH. destruct l as [|y l']; simpl.
    + reflexivity.
    + inversion Hx as [|? ? Hxy _]; subst. unfold le in Hxy.
      rewrite Hxy. reflexivity.
Qed.

(** Stability: a class of elements that excludes whatever is strictly
    smaller than one of its members keeps its order. *)
Lemma insort_filter (p : A -> bool) x l :
  (forall y, p x = true -> ltb (key y) (key x) = true -> p y = false) ->
  List.filter p (insort key ltb x l) = List.filter p (x :: l).
Proof.
  intros Hp. induction l as [|y l IH]; simpl.
  - reflexivity.
  - destruct (ltb (key y) (key x)) eqn:E; simpl.
    + rewrite IH. simpl. destruct (p x) eqn:Px.
      * rewrite (Hp y eq_refl E). reflexivity.
      * reflexivity.
    + reflexivity.
Qed.

Lemma sorted_filter (p : A -> bool) l :
  (forall x y, p x = true -> ltb (key y) (key x) = true -> p y = false) ->
  List.filter p (sorted key ltb l) = List.filter p l.
Proof.
  intros Hp. induction l as [|x l IH]; simpl.
  - reflexivity.
  - rewrite insort_filter by (apply Hp). simpl. rewrite IH. reflexivity.
Qed.

End SortedFacts.

(** *** A stable sort is unique *)

Section StableUnique.
Context {A : Type} (le : A -> A -> Prop) (eqv : A -> A -> bool).

Hypothesis le_refl : forall x, le x x.
Hypothesis eqv_spec : forall x y, eqv x y = true <-> le x y /\ le y x.

Lemma eqv_refl x : eqv x x = true.
Proof. apply eqv_spec. split; apply le_refl. Qed.

Lemma filter_head_In (p : A -> bool) x l l' :
  List.filter p l = x :: l' -> In x l.
Proof.
  intros H. assert (Hin : In x (List.filter p l)) by (rewrite H; left; reflexivity).
  apply filter_In in Hin. tauto.
Qed.

(** Two sorted lists in which every class of tied elements appears in
    the same order are equal. *)
Lemma sorted_stable_unique l1 :
  forall l2,
    StronglySorted le l1 -> StronglySorted le l2 ->
    (forall x, List.filter (eqv x) l1 = List.filter (eqv x) l2) ->
    l1 = l2.
Proof.
  induction l1 as [|x l1 IH]; intros l2 H1 H2 Hf.
  - destruct l2 as [|y l2]; [reflexivity|].
    specialize (Hf y). simpl in Hf. rewrite eqv_refl in Hf. discriminate.
  - destruct l2 as [|y l2].
    { specialize (Hf x). simpl in Hf. rewrite eqv_refl in Hf. discriminate. }
    inversion H1 as [|? ? H1' Hx]; subst.
    inversion H2 as [|? ? H2' Hy]; subst.
    rewrite Forall_forall in Hx, Hy.
    assert (Hxy : x = y).
    { destruct (eqv x y) eqn:E.
      - specialize (Hf x). simpl in Hf. rewrite eqv_refl, E in Hf.
        congruence.
      - exfalso.
        assert (Eyx : eqv y x = false).
        { destruct (eqv y x) eqn:E'; [|reflexivity].
          apply eqv_spec in E'. assert (eqv x y = true) by (apply eqv_spec; tauto).
          congruence. }
        pose proof (Hf x) as Hfx. simpl in Hfx. rewrite eqv_refl, E in Hfx.
        symmetry in Hfx. apply filter_head_In in Hfx.
        pose proof (Hf y) as Hfy. simpl in Hfy. rewrite eqv_refl, Eyx in Hfy.
        apply filter_head_In in Hfy.
        assert (eqv x y = true).
        { apply eqv_spec. split.
          - apply Hx, list_elem_of_In, Hfy.
          - apply Hy, list_elem_of_In, Hfx. }
        congruence. }
    subst y. f_equal. apply IH; [assumption | assumption |].
    intros z. specialize (Hf z). simpl in Hf.
    destruct (eqv z x); congruence.
Qed.

End StableUnique.

(** *** The order on keys *)

Lemma item_eqb_eq a b : item_eqb a b = true <-> item_eq a b.
Proof.
  destruct a, b; simpl; try (split; [discriminate | tauto]).
  - apply Qeq_bool_iff.
  - tauto.
Qed.

Lemma item_ltb_lt a b : item_ltb a b = true <-> item_lt a b.
Proof.
  destruct a, b; simpl; try (split; [discriminate | tauto]).
  - apply Qltb_lt.
  - tauto.
Qed.

Lemma item_trichotomy a b : item_lt a b \/ item_eq a b \/ item_lt b a.
Proof.
  destruct a as [x|], b as [y|]; simpl; try tauto.
  destruct (Q_dec x y) as [[H | H] | H]; tauto.
Qed.

Lemma item_lt_not_eq a b : item_lt a b -> ~ item_eq a b.
Proof. destruct a, b; simpl; try tauto. lra. Qed.

Lemma item_lt_asym a b : item_lt a b -> ~ item_lt b a.
Proof. destruct a, b; simpl; try tauto. lra. Qed.

Lemma item_eq_refl a : item_eq a a.
Proof. destruct a; simpl; [reflexivity | exact I]. Qed.

Lemma item_eq_sym a b : item_eq a b -> item_eq b a.
Proof. destruct a, b; simpl; try tauto. lra. Qed.

Lemma item_eq_trans a b c : item_eq a b -> item_eq b c -> item_eq a c.
Proof. destruct a, b, c; simpl; try tauto. lra. Qed.

Lemma item_lt_trans a b c : item_lt a b -> item_lt b c -> item_lt a c.
Proof. destruct a, b, c; simpl; try tauto. lra. Qed.

Lemma item_lt_eq a b c : item_lt a b -> item_eq b c -> item_lt a c.
Proof. destruct a, b, c; simpl; try tauto. lra. Qed.

Lemma item_eq_lt a b c : item_eq a b -> item_lt b c -> item_lt a c.
Proof. destruct a, b, c; simpl; try tauto. lra. Qed.

(** [tuple_ltb y x] fails exactly when [x] is lexicographically no
    larger than [y]. *)
Lemma tuple_ltb_false x : forall y, tuple_ltb y x = false <-> tuple_le x y.
Proof.
  induction x as [|a x IH]; intros [|b y]; simpl; try tauto.
  - split; [discriminate | tauto].
  - destruct (item_eqb b a) eqn:E.
    + apply item_eqb_eq in E. rewrite IH. split.
      * intros H. right. split; [apply item_eq_sym, E | exact H].
      * intros [H | [_ H]]; [|exact H].
        apply item_lt_not_eq in H. apply item_eq_sym in E. contradiction.
    + assert (Hne : ~ item_eq b a).
      { intros H. apply item_eqb_eq in H. congruence. }
      split.
      * intros H. left.
        destruct (item_trichotomy a b) as [Hlt | [Heq | Hgt]]; [exact Hlt | |].
        -- apply item_eq_sym in Heq. contradiction.
        -- apply item_ltb_lt in Hgt. congruence.
      * intros [H | [H _]].
        -- destruct (item_ltb b a) eqn:E'; [|reflexivity].
           apply item_ltb_lt in E'. apply item_lt_asym in H. contradiction.
        -- apply item_eq_sym in H. contradiction.
Qed.

Lemma tuple_le_trans x : forall y z, tuple_le x y -> tuple_le y z -> tuple_le x z.
Proof.
  induction x as [|a x IH]; intros [|b y] [|c z]; simpl; try tauto.
  intros [Hab | [Hab Hxy]] [Hbc | [Hbc Hyz]].
  - left. eapply item_lt_trans; eassumption.
  - left. eapply item_lt_eq; eassumption.
  - left. eapply item_eq_lt; eassumption.
  - right. split; [eapply item_eq_trans; eassumption | eapply IH; eassumption].
Qed.

Lemma tuple_le_total x : forall y, tuple_le x y \/ tuple_le y x.
Proof.
  induction x as [|a x IH]; intros [|b y]; simpl; try tauto.
  destruct (item_trichotomy a b) as [H | [H | H]]; [tauto | | tauto].
  destruct (IH y) as [H' | H']; [left | right]; right.
  - tauto.
  - split; [apply item_eq_sym, H | exact H'].
Qed.

Lemma tuple_ltb_asym x y : tuple_ltb x y = true -> tuple_ltb y x = false.
Proof.
  intros H. apply tuple_ltb_false.
  destruct (tuple_le_total x y) as [Hxy | Hyx]; [exact Hxy|].
  apply tuple_ltb_false in Hyx. congruence.
Qed.

Lemma tuple_ltb_le_trans a b c :
  tuple_ltb b a = false -> tuple_ltb c b = false -> tuple_ltb c a = false.
Proof.
  rewrite !tuple_ltb_false. apply tuple_le_trans.
Qed.

(** *** The key of [rank_suppliers] and the order of the specification *)

Lemma sort_key_default s :
  sort_key default_criteria s
  = [criterion s "distance_km"; criterion s "price_inr_per_ton";
     criterion s "lead_time_days"].
Proof. reflexivity. Qed.

Lemma rank_le_key s t :
  tuple_ltb (sort_key default_criteria t) (sort_key default_criteria s) = false
  <-> rank_le s t.
Proof.
  rewrite tuple_ltb_false, !sort_key_default. unfold rank_le, item_le. simpl.
  tauto.
Qed.

Lemma same_rank_excludes_smaller z x y :
  same_rank z x = true ->
  tuple_ltb (sort_key default_criteria y) (sort_key default_criteria x) = true ->
  same_rank z y = false.
Proof.
  unfold same_rank. rewrite !andb_true_iff, !item_eqb_eq.
  intros [[Hd Hp] Hl] Hlt.
  destruct (item_eqb (criterion z "distance_km") (criterion y "distance_km")
            && item_eqb (criterion z "price_inr_per_ton")
                        (criterion y "price_inr_per_ton")
            && item_eqb (criterion z "lead_time_days")
                        (criterion y "lead_time_days")) eqn:E; [|reflexivity].
  rewrite !andb_true_iff, !item_eqb_eq in E. destruct E as [[Hd' Hp'] Hl'].
  assert (Hle : rank_le x y).
  { unfold rank_le, item_le. right. split.
    - eapply item_eq_trans; [apply item_eq_sym|]; eassumption.
    - right. split.
      + eapply item_eq_trans; [apply item_eq_sym|]; eassumption.
      + right. eapply item_eq_trans; [apply item_eq_sym|]; eassumption. }
  apply rank_le_key in Hle. congruence.
Qed.

Lemma StronglySorted_weaken {A} (R R' : A -> A -> Prop) l :
  (forall a b, R a b -> R' a b) -> StronglySorted R l -> StronglySorted R' l.
Proof.
  intros HR. induction 1 as [|x l Hl IH Hx]; constructor.
  - exact IH.
  - eapply Forall_impl; [exact Hx|]. intros b. apply HR.
Qed.

Lemma rank_suppliers_sorted suppliers :
  rank_suppliers suppliers None
  = sorted (sort_key default_criteria) tuple_ltb suppliers.
Proof. destruct suppliers; reflexivity. Qed.

Lemma rank_suppliers_is_sorted suppliers :
  StronglySorted rank_le (rank_suppliers suppliers None).
Proof.
  rewrite rank_suppliers_sorted. eapply StronglySorted_weaken.
  - intros s t. apply rank_le_key.
  - apply sorted_sorted; [apply tuple_ltb_asym | apply tuple_ltb_le_trans].
Qed.

Lemma rank_suppliers_is_stable suppliers s :
  List.filter (same_rank s) (rank_suppliers suppliers None)
  = List.filter (same_rank s) suppliers.
Proof.
  rewrite rank_suppliers_sorted. apply sorted_filter.
  intros x y. apply same_rank_excludes_smaller.
Qed.

(** C3.  [rank_suppliers], with the default criteria, is a stable sort
    by (distance_km, price_inr_per_ton, lead_time_days), a missing
    value counting as [+infinity]: the result is a rearrangement of the
    input, every supplier of the result ranks no later than all those
    after it, suppliers that tie on the three criteria keep the order
    they had in the input, and ranking a ranked list returns it
    unchanged. *)
Theorem rank_suppliers_stable_sort suppliers :
  let ranked := rank_suppliers suppliers None in
  Permutation ranked suppliers /\
  StronglySorted rank_le ranked /\
  (forall s, List.filter (same_rank s) ranked = List.filter (same_rank s) suppliers) /\
  rank_suppliers ranked None = ranked.
Proof.
  cbv zeta. split_and!.
  - rewrite rank_suppliers_sorted. apply sorted_perm.
  - apply rank_suppliers_is_sorted.
  - apply rank_suppliers_is_stable.
  - rewrite (rank_suppliers_sorted (rank_suppliers suppliers None)).
    apply sorted_fixpoint.
    eapply StronglySorted_weaken; [|apply rank_suppliers_is_sorted].
    intros s t. apply rank_le_key.
Qed.

Lemma rank_le_refl s : rank_le s s.
Proof.
  unfold rank_le, item_le. right. split; [apply item_eq_refl|].
  right. split; [apply item_eq_refl|]. right. apply item_eq_refl.
Qed.

Lemma same_rank_le s t : same_rank s t = true <-> rank_le s t /\ rank_le t s.
Proof.
  unfold same_rank, rank_le, item_le.
  rewrite !andb_true_iff, !item_eqb_eq.
  set (d := criterion s "distance_km"). set (d' := criterion t "distance_km").
  set (p := criterion s "price_inr_per_ton").
  set (p' := criterion t "price_inr_per_ton").
  set (l := criterion s "lead_time_days").
  set (l' := criterion t "lead_time_days").
  pose proof (item_lt_not_eq d d'). pose proof (item_lt_not_eq d' d).
  pose proof (item_lt_not_eq p p'). pose proof (item_lt_not_eq p' p).
  pose proof (item_lt_not_eq l l'). pose proof (item_lt_not_eq l' l).
  pose proof (item_lt_asym d d'). pose proof (item_lt_asym p p').
  pose proof (item_lt_asym l l').
  pose proof (item_eq_sym d d'). pose proof (item_eq_sym d' d).
  pose proof (item_eq_sym p p'). pose proof (item_eq_sym p' p).
  pose proof (item_eq_sym l l'). pose proof (item_eq_sym l' l).
  tauto.
Qed.

(** The result of [rank_suppliers] is the only list that is sorted and
    keeps tied suppliers in their input order: any stable sort by this
    key, whatever its algorithm, returns the same list. *)
Lemma rank_suppliers_unique suppliers ranked :
  StronglySorted rank_le ranked ->
  (forall s, List.filter (same_rank s) ranked
             = List.filter (same_rank s) suppliers) ->
  ranked = rank_suppliers suppliers None.
Proof.
  intros Hsorted Hstable.
  apply (sorted_stable_unique rank_le same_rank rank_le_refl same_rank_le).
  - exact Hsorted.
  - apply rank_suppliers_is_sorted.
  - intros s. rewrite Hstable, rank_suppliers_is_stable. reflexivity.
Qed.

(** Ties keep their input order and the supplier without a distance
    comes last. *)
Example rank_suppliers_sample :
  rank_suppliers [sample_a; sample_b; sample_c; sample_d] None
  = [sample_b; sample_d; sample_a; sample_c].
Proof. reflexivity. Qed.

(** ** Response cache *)

Section CacheFacts.
Context {A : Type}.
Variable _generate_key : gmap string kwarg -> string.

Let get := CacheManager.get (A := A) _generate_key.
Let set := CacheManager.set (A := A) _generate_key.

Lemma set_run (data : A) ttl_hours kwargs (w : world A) :
  set data ttl_hours kwargs w
  = (inr tt,
     World (clock w) (S (S (ticks w)))
           (<[_generate_key kwargs :=
                Entry data (clock w (ticks w))
                      (clock w (S (ticks w)) + effective_ttl w ttl_hours)%Z]>
              (_cache w))
           (_default_ttl w) (_supplier_data_cache w)).
Proof. destruct ttl_hours; reflexivity. Qed.

Lemma get_absent kwargs (w : world A) :
  _cache w !! _generate_key kwargs = None ->
  get kwargs w = (inr None, w).
Proof.
  intros H. unfold get, CacheManager.get, mbind, M_bind, bind, read_cache. simpl.
  rewrite H. reflexivity.
Qed.

(** Lazy expiry: an entry whose expiry time has passed is deleted by the
    read that finds it. *)
Lemma get_expired kwargs (w : world A) e :
  _cache w !! _generate_key kwargs = Some e ->
  (entry_expiry e < clock w (ticks w))%Z ->
  get kwargs w
  = (inr None,
     World (clock w) (S (ticks w)) (delete (_generate_key kwargs) (_cache w))
           (_default_ttl w) (_supplier_data_cache w)).
Proof.
  intros H Hlt. unfold get, CacheManager.get, mbind, M_bind, bind, read_cache. simpl.
  rewrite H. simpl.
  apply Z.ltb_lt in Hlt. rewrite Hlt. reflexivity.
Qed.

Lemma get_fresh kwargs (w : world A) e :
  _cache w !! _generate_key kwargs = Some e ->
  (clock w (ticks w) <= entry_expiry e)%Z ->
  get kwargs w
  = (inr (Some (Hit (entry_data e) (entry_cached_at e)
                    (total_seconds_int
                       (clock w (S (S (ticks w))) - entry_cached_at e))
                    true)),
     World (clock w) (S (S (S (ticks w)))) (_cache w)
           (_default_ttl w) (_supplier_data_cache w)).
Proof.
  intros H Hle. unfold get, CacheManager.get, mbind, M_bind, bind, read_cache. simpl.
  rewrite H. simpl.
  apply Z.ltb_ge in Hle. rewrite Hle. reflexivity.
Qed.

(** A hit is never older than its expiry time. *)
Lemma get_hit_not_expired kwargs (w w' : world A) h :
  get kwargs w = (inr (Some h), w') ->
  exists e,
    _cache w !! _generate_key kwargs = Some e /\
    (clock w (ticks w) <= entry_expiry e)%Z /\
    hit_data h = entry_data e.
Proof.
  intros Hget.
  destruct (_cache w !! _generate_key kwargs) as [e|] eqn:He.
  - exists e. split; [reflexivity|].
    destruct (Z_lt_le_dec (entry_expiry e) (clock w (ticks w))) as [Hlt | Hle].
    + rewrite (get_expired _ _ _ He Hlt) in Hget. discriminate.
    + rewrite (get_fresh _ _ _ He Hle) in Hget.
      injection Hget as <- _. split; [exact Hle | reflexivity].
  - rewrite (get_absent _ _ He) in Hget. discriminate.
Qed.

(** C5, for a positive time-to-live.  After [set] with [ttl_hours = h],
    [h > 0]: the entry stored under the key holds the data, the first
    clock reading of [set] as its creation time and the second reading
    plus [h] hours as its expiry time; a [get] for the same parameters
    while the clock has not moved returns the data with [age_seconds = 0];
    a [get] whose clock reading is past the expiry time returns a miss
    and leaves no entry under the key; and whenever this [get] returns
    a hit, its clock reading is not past the expiry time. *)
Theorem cache_set_get_round_trip (data : A) (h : Z) kwargs (w : world A) :
  (0 < h)%Z ->
  let w1 := (set data (Some h) kwargs w).2 in
  let expiry := (clock w (S (ticks w)) + timedelta_hours h)%Z in
  (set data (Some h) kwargs w).1 = inr tt /\
  _cache w1 !! _generate_key kwargs
  = Some (Entry data (clock w (ticks w)) expiry) /\
  (forall t,
      (forall n, (ticks w <= n < ticks w + 5)%nat -> clock w n = t) ->
      (get kwargs w1).1 = inr (Some (Hit data t 0 true))) /\
  ((expiry < clock w (S (S (ticks w))))%Z ->
   (get kwargs w1).1 = inr None /\
   _cache (get kwargs w1).2 !! _generate_key kwargs = None) /\
  (forall hit w2,
      get kwargs w1 = (inr (Some hit), w2) ->
      hit_data hit = data /\ (clock w (S (S (ticks w))) <= expiry)%Z).
Proof.
  intros Hh. cbv zeta.
  assert (Ettl : effective_ttl w (Some h) = timedelta_hours h).
  { simpl. destruct (Z.eqb_spec h 0); [lia | reflexivity]. }
  rewrite set_run, Ettl. simpl.
  set (e := Entry data (clock w (ticks w))
                  (clock w (S (ticks w)) + timedelta_hours h)%Z).
  set (w1 := World (clock w) (S (S (ticks w)))
                   (<[_generate_key kwargs := e]> (_cache w))
                   (_default_ttl w) (_supplier_data_cache w)).
  assert (He : _cache w1 !! _generate_key kwargs = Some e)
    by apply lookup_insert_eq.
  split_and!.
  - reflexivity.
  - exact He.
  - intros t Ht.
    rewrite (get_fresh kwargs w1 e He); simpl.
    + rewrite (Ht (ticks w)), (Ht (S (S (S (S (ticks w)))))) by lia.
      rewrite Z.sub_diag. reflexivity.
    + rewrite (Ht (S (ticks w))), (Ht (S (S (ticks w)))) by lia.
      unfold timedelta_hours. lia.
  - intros Hlt.
    rewrite (get_expired kwargs w1 e He) by exact Hlt. simpl.
    split; [reflexivity | apply lookup_delete_eq].
  - intros hit w2 Hget.
    apply get_hit_not_expired in Hget as (e' & He' & Hle & Hdata).
    rewrite He in He'. injection He' as <-.
    split; [exact Hdata | exact Hle].
Qed.

End CacheFacts.

Lemma cache_set_get_round_trip_witness :
  (0 < 24)%Z /\
  (CacheManager.get (fun _ => "key")
     ∅ (CacheManager.set (fun _ => "key") "bundle" (Some 24%Z) ∅
          (new_world (fun _ => 0%Z) 24)).2).1
  = inr (Some (Hit "bundle" 0%Z 0%Z true)).
Proof.
  split; [lia|].
  destruct (cache_set_get_round_trip (fun _ => "key") "bundle" 24 ∅
              (new_world (fun _ => 0%Z) 24)) as (_ & _ & Hget & _).
  - lia.
  - apply Hget. intros n _. reflexivity.
Defined.

(** C5, as stated for every TTL, fails on a negative one: the entry is
    stored with an expiry time in the past, and the [get] that follows
    with the clock unmoved returns a miss. *)
Lemma cache_negative_ttl_counterexample :
  (CacheManager.get (fun _ => "key")
     ∅ (CacheManager.set (fun _ => "key") "bundle" (Some (-1)%Z) ∅
          (new_world (fun _ => 0%Z) 24)).2).1
  = inr None.
Proof. reflexivity. Qed.

(** With [ttl_hours = 0] the test [if ttl_hours] fails and the default
    TTL applies: two seconds later the entry is still served. *)
Example cache_zero_ttl_uses_default :
  (CacheManager.get (fun _ => "key")
     ∅ (CacheManager.set (fun _ => "key") "bundle" (Some 0%Z) ∅
          (new_world (fun n => (Z.of_nat n * 1000000)%Z) 24)).2).1
  = inr (Some (Hit "bundle" 0%Z 4%Z true)).
Proof. reflexivity. Qed.


(** ** Search *)

Lemma preserves_ret {A R} (P : world A -> Prop) (r : R) : preserves P (ret r).
Proof. intros w H. exact H. Qed.

Lemma preserves_raise {A R} (P : world A -> Prop) e :
  preserves P (raise (R := R) e).
Proof. intros w H. exact H. Qed.

Lemma preserves_bind {A R S} (P : world A -> Prop) (m : M A R) (k : R -> M A S) :
  preserves P m -> (forall r, preserves P (k r)) -> preserves P (m ≫= k).
Proof.
  intros Hm Hk w H. unfold mbind, M_bind, bind.
  specialize (Hm w H). destruct (m w) as [[e | r] w']; simpl in *.
  - exact Hm.
  - apply Hk, Hm.
Qed.

Lemma preserves_try_except {A R} (P : world A -> Prop) (m : M A R) handler :
  preserves P m -> preserves P (try_except m handler).
Proof.
  intros Hm w H. unfold try_except.
  specialize (Hm w H). destruct (m w) as [[e | r] w']; exact Hm.
Qed.

Lemma preserves_for_each {A X Y} (P : world A -> Prop) (f : X -> M A Y) l :
  (forall x, preserves P (f x)) -> preserves P (for_each f l).
Proof.
  intros Hf. induction l as [|x l IH]; simpl.
  - apply preserves_ret.
  - apply preserves_bind; [apply Hf|]. intros y.
    apply preserves_bind; [apply IH|]. intros ys. apply preserves_ret.
Qed.

(** The clock and the response cache are no part of
    [loaded_materials_known]. *)
Lemma known_utcnow {A} : preserves (A := A) loaded_materials_known utcnow.
Proof. intros w H. exact H. Qed.

Lemma known_read_cache {A} : preserves (A := A) loaded_materials_known read_cache.
Proof. intros w H. exact H. Qed.

Lemma known_write_cache {A} c :
  preserves (A := A) loaded_materials_known (write_cache c).
Proof. intros w H. exact H. Qed.

Lemma known_get {A} gk kwargs :
  preserves (A := A) loaded_materials_known (CacheManager.get gk kwargs).
Proof.
  unfold CacheManager.get.
  apply preserves_bind; [apply known_read_cache|]. intros c.
  destruct (c !! gk kwargs); [|apply preserves_ret].
  apply preserves_bind; [apply known_utcnow|]. intros now.
  destruct (_ <? _)%Z.
  - apply preserves_bind; [apply known_write_cache|]. intros _.
    apply preserves_ret.
  - apply preserves_bind; [apply known_utcnow|]. intros _.
    apply preserves_bind; [apply known_utcnow|]. intros now'.
    apply preserves_ret.
Qed.

Lemma known_set {A} gk (data : A) ttl_hours kwargs :
  preserves loaded_materials_known (CacheManager.set gk data ttl_hours kwargs).
Proof. intros w H. rewrite set_run. exact H. Qed.

Section SearchFacts.
Variable haversine_distance : Q -> Q -> Q -> Q -> Q.
Variable _generate_key : gmap string kwarg -> string.
Variable current_dir : string.
Variable read_file : string -> file_result.
Variable settings : Settings.

Lemma known_load_supplier_data {A} material_id :
  preserves (A := A) loaded_materials_known
            (load_supplier_data current_dir read_file material_id).
Proof.
  intros w H. unfold load_supplier_data, mbind, M_bind, bind,
                read_supplier_data_cache. simpl.
  destruct (_supplier_data_cache w !! lower material_id); [exact H|].
  destruct (MATERIAL_FILE_MAP !! lower material_id) as [filename|] eqn:Hfile;
    [|exact H].
  destruct (read_file _); try exact H. simpl.
  intros key. simpl. rewrite lookup_insert.
  destruct (decide (lower material_id = key)) as [<- | Hne].
  - intros _. eauto.
  - apply H.
Qed.

Lemma known_search_suppliers request request_id :
  preserves loaded_materials_known
            (search_suppliers haversine_distance _generate_key current_dir
                              read_file settings request request_id).
Proof.
  assert (Hmiss : preserves loaded_materials_known
                    (try_except
                       (search_miss haversine_distance _generate_key
                                    current_dir read_file settings
                                    request request_id)
                       search_handler)).
  { apply preserves_try_except. unfold search_miss.
    apply preserves_bind; [apply known_load_supplier_data|]. intros data.
    apply preserves_bind.
    - apply preserves_for_each. intros s. unfold getitem.
      apply preserves_bind;
        [destruct (s !! "latitude"); [apply preserves_ret | apply preserves_raise]|].
      intros lat.
      apply preserves_bind;
        [destruct (s !! "longitude"); [apply preserves_ret | apply preserves_raise]|].
      intros lon. apply preserves_ret.
    - intros enriched.
      apply preserves_bind; [apply known_utcnow|]. intros now.
      apply preserves_bind; [apply known_set|]. intros _. apply preserves_ret. }
  unfold search_suppliers.
  apply preserves_bind; [apply known_get|]. intros [h|]; [|exact Hmiss].
  destruct (USE_MOCK settings); [|exact Hmiss].
  apply preserves_bind; [apply known_read_cache|]. intros c.
  apply preserves_bind; [apply known_write_cache|]. intros _.
  apply preserves_ret.
Qed.

(** An unknown material makes [load_supplier_data] raise, and the state
    stays as it was. *)
Lemma load_supplier_data_unknown {A} material_id (w : world A) :
  MATERIAL_FILE_MAP !! lower material_id = None ->
  loaded_materials_known w ->
  load_supplier_data current_dir read_file material_id w
  = (inl (ValueError ("Unknown material_id: " ++ material_id)), w).
Proof.
  intros Hmap Hknown.
  unfold load_supplier_data, mbind, M_bind, bind, read_supplier_data_cache.
  simpl.
  destruct (_supplier_data_cache w !! lower material_id) as [data|] eqn:Hdata.
  - destruct (Hknown (lower material_id)) as [f Hf]; [eauto|]. congruence.
  - rewrite Hmap. reflexivity.
Qed.

(** The miss path of the search on an unknown material: the error of
    [load_supplier_data] becomes an HTTP error 400. *)
Lemma search_miss_unknown request request_id (w : world SupplierBundle) :
  MATERIAL_FILE_MAP !! lower (material request) = None ->
  loaded_materials_known w ->
  try_except
    (search_miss haversine_distance _generate_key current_dir read_file
                 settings request request_id)
    search_handler w
  = (inl (HTTPException 400 ("Unknown material_id: " ++ material request)), w).
Proof.
  intros Hmap Hknown. unfold try_except, search_miss, mbind, M_bind, bind.
  rewrite (load_supplier_data_unknown _ _ Hmap Hknown). reflexivity.
Qed.

(** C2, as the code has it.  A search for a material that the file map
    does not know (an identifier of ASCII characters whose lower-case
    form is no key of the map), while the response cache holds no usable
    entry for the request, fails with the HTTP error 400
    "Unknown material_id: ...", a client error, and afterwards the
    response cache holds no entry under the key of the request and the
    entries under the other keys are as before. *)
Theorem search_unknown_material request request_id (w : world SupplierBundle) :
  isascii (material request) = true ->
  MATERIAL_FILE_MAP !! lower (material request) = None ->
  loaded_materials_known w ->
  no_live_entry w (_generate_key (cache_key_params request)) ->
  let result :=
    search_suppliers haversine_distance _generate_key current_dir read_file
                     settings request request_id w in
  result.1
  = inl (HTTPException 400 ("Unknown material_id: " ++ material request)) /\
  (forall e, result.1 = inl e -> client_error e) /\
  _cache result.2 !! _generate_key (cache_key_params request) = None /\
  (forall key, key <> _generate_key (cache_key_params request) ->
               _cache result.2 !! key = _cache w !! key) /\
  _supplier_data_cache result.2 = _supplier_data_cache w.
Proof.
  intros _ Hmap Hknown Hlive. cbv zeta.
  unfold no_live_entry in Hlive.
  destruct (_cache w !! _generate_key (cache_key_params request)) as [e|] eqn:He.
  - assert (Hrun :
        search_suppliers haversine_distance _generate_key current_dir read_file
                         settings request request_id w
        = (inl (HTTPException 400 ("Unknown material_id: " ++ material request)),
           World (clock w) (S (ticks w))
                 (delete (_generate_key (cache_key_params request)) (_cache w))
                 (_default_ttl w) (_supplier_data_cache w))).
    { unfold search_suppliers, mbind, M_bind. unfold bind at 1.
      rewrite (get_expired _ _ _ _ He Hlive).
      apply search_miss_unknown; assumption. }
    rewrite Hrun. simpl. split_and!; auto.
    + intros e' Heq. injection Heq as Heq. rewrite <- Heq. simpl. lia.
    + apply lookup_delete_eq.
    + intros key Hkey. apply lookup_delete_ne. congruence.
  - assert (Hrun :
        search_suppliers haversine_distance _generate_key current_dir read_file
                         settings request request_id w
        = (inl (HTTPException 400 ("Unknown material_id: " ++ material request)),
           w)).
    { unfold search_suppliers, mbind, M_bind. unfold bind at 1.
      rewrite (get_absent _ _ _ He).
      apply search_miss_unknown; assumption. }
    rewrite Hrun. simpl. split_and!; auto.
    intros e' Heq. injection Heq as Heq. rewrite <- Heq. simpl. lia.
Qed.

End SearchFacts.

Lemma new_world_known {A} clk default_ttl_hours :
  loaded_materials_known (new_world (A := A) clk default_ttl_hours).
Proof. intros key [data Hdata]. simpl in Hdata. rewrite lookup_empty in Hdata. discriminate. Qed.

Lemma search_unknown_material_witness :
  (search_suppliers (fun _ _ _ _ => 0) (fun _ => "key") "/srv" (fun _ => NoSuchFile)
     default_settings
     {| search_origin := {| latitude := 17; longitude := 78 |};
        material := "Steel"; quantity_tons := 50 |}
     "req-000000000000" (new_world (fun _ => 0%Z) 24)).1
  = inl (HTTPException 400 "Unknown material_id: Steel").
Proof.
  apply (search_unknown_material
           (fun _ _ _ _ => 0) (fun _ => "key") "/srv" (fun _ => NoSuchFile)
           default_settings
           {| search_origin := {| latitude := 17; longitude := 78 |};
              material := "Steel"; quantity_tons := 50 |}
           "req-000000000000" (new_world (fun _ => 0%Z) 24)).
  - reflexivity.
  - reflexivity.
  - apply new_world_known.
  - exact I.
Defined.

(** C2, as stated, fails on the kind of the error.  The search for the
    unknown material "Steel" does not fail with a "not found" error of
    its own: it fails with the status 400 that the route gives to every
    [ValueError], for instance to a data file that is not valid JSON,
    while the status 404 goes to a data file that is missing. *)
Lemma search_unknown_material_counterexample :
  sample_search (fun _ => NoSuchFile) "Steel"
  = inl (HTTPException 400 "Unknown material_id: Steel") /\
  sample_search (fun _ => InvalidJSON "Expecting value") "Cement"
  = inl (HTTPException 400 "Invalid JSON in supplier data file: Expecting value") /\
  sample_search (fun _ => NoSuchFile) "Cement"
  = inl (HTTPException 404
           "Supplier data file not found: /srv/data/cement_suppliers_mock.json") /\
  400%Z <> 404%Z.
Proof. split_and!; [reflexivity | reflexivity | reflexivity | discriminate]. Qed.

(** A search that succeeds: the nearer supplier is recommended and the
    bundle is stored in the response cache. *)
Example search_known_material_is_cached :
  (exists bundle,
      example_search.1 = inr bundle /\
      (fun s => s !! "distance_km") <$> suppliers bundle = [Some 2; Some 5] /\
      (fun s => s !! "distance_km") <$> recommended bundle = Some (Some 2) /\
      entry_data <$> (_cache example_search.2 !! "key") = Some bundle) /\
  is_Some (_supplier_data_cache example_search.2 !! "cement").
Proof.
  split.
  - eexists. split_and!; [reflexivity | reflexivity | reflexivity | reflexivity].
  - eexists. reflexivity.
Qed.

(** ** Price jitter *)

Lemma uniform_bounds a b u :
  a <= b -> 0 <= u -> u <= 1 -> a <= uniform a b u /\ uniform a b u <= b.
Proof. intros Hab H0 H1. unfold uniform. split; nra. Qed.

(** C6, as the code has it.  For a non-negative base price and a draw
    [u] of [random()] between 0 and 1, the factor lies in [0.99, 1.02]
    and [apply_price_jitter] with the default factors returns the
    jittered price rounded to cents: a value between [base * 0.99]
    rounded to cents and [base * 1.02] rounded to cents, hence no more
    than half a cent outside the interval [base * 0.99, base * 1.02]. *)
Theorem apply_price_jitter_bounds base_price u :
  0 <= base_price -> 0 <= u -> u <= 1 ->
  let jitter := uniform (99 # 100) (102 # 100) u in
  let price := apply_price_jitter base_price (99 # 100) (102 # 100) u in
  (99 # 100) <= jitter /\ jitter <= (102 # 100) /\
  price = round2 (base_price * jitter) /\
  round2 (base_price * (99 # 100)) <= price /\
  price <= round2 (base_price * (102 # 100)) /\
  base_price * (99 # 100) - (1 # 200) <= price /\
  price <= base_price * (102 # 100) + (1 # 200).
Proof.
  intros Hbase H0 H1. cbv zeta.
  destruct (uniform_bounds (99 # 100) (102 # 100) u) as [Hlo Hhi]; try lra.
  unfold apply_price_jitter.
  set (jitter := uniform (99 # 100) (102 # 100) u) in *.
  assert (Hlo' : base_price * (99 # 100) <= base_price * jitter) by nra.
  assert (Hhi' : base_price * jitter <= base_price * (102 # 100)) by nra.
  pose proof (round2_error (base_price * jitter)) as [Helo Hehi].
  split_and!; auto using round2_mono; lra.
Qed.

Lemma apply_price_jitter_bounds_witness :
  0 <= 6800 /\ 0 <= 1 # 2 /\ (1 # 2) <= 1 /\
  round2 (6800 * (99 # 100))
  <= apply_price_jitter 6800 (99 # 100) (102 # 100) (1 # 2) /\
  apply_price_jitter 6800 (99 # 100) (102 # 100) (1 # 2)
  <= round2 (6800 * (102 # 100)).
Proof.
  assert (H0 : 0 <= 6800) by lra.
  assert (H1 : 0 <= 1 # 2) by lra.
  assert (H2 : (1 # 2) <= 1) by lra.
  destruct (apply_price_jitter_bounds 6800 (1 # 2) H0 H1 H2)
    as (_ & _ & _ & Hlo & Hhi & _).
  split_and!; assumption.
Defined.

(** C6, as stated, fails on the rounding: a base price of 0.30 with the
    factor 1.019 gives 0.3057, returned as 0.31, above 0.30 * 1.02 =
    0.306. *)
Lemma apply_price_jitter_counterexample :
  uniform (99 # 100) (102 # 100) (29 # 30) == 1019 # 1000 /\
  apply_price_jitter (3 # 10) (99 # 100) (102 # 100) (29 # 30) = 31 # 100 /\
  (3 # 10) * (102 # 100) < 31 # 100.
Proof. split_and!; reflexivity. Qed.

(** ** Route estimate *)

Section RouteFacts.
Context {A : Type}.
Variable haversine_distance : Q -> Q -> Q -> Q -> Q.
Variable settings : Settings.
Variable strftime_Ymd : Z -> string.

(** The quantity that enters the CO2 estimate: the request's when it is
    there and not zero, 10 tons otherwise. *)
Let co2_quantity (request : RouteRequest) : Q :=
  match route_quantity_tons request with
  | Some q => if truthy q then q else 10
  | None => 10
  end.

(** With both destination coordinates the route returns an estimate
    built on the distance between origin and destination. *)
Lemma calculate_route_eta_run request request_id (w : world A) dest_lat dest_lon :
  destination request !! "latitude" = Some dest_lat ->
  destination request !! "longitude" = Some dest_lon ->
  let distance :=
    haversine_distance (latitude (route_origin request))
                       (longitude (route_origin request)) dest_lat dest_lon in
  exists r,
    (calculate_route_eta haversine_distance settings strftime_Ymd
                         request request_id w).1 = inr r /\
    distance_km r = distance /\
    co2_kg r = calculate_co2_emissions (co2_quantity request) distance /\
    route_quality r
    = (if Qltb distance 10 then "optimal"
       else if Qltb distance 30 then "good" else "fair") /\
    duration_minutes r = Qtrunc (distance / 40 * 60).
Proof.
  intros Hlat Hlon. cbv zeta.
  unfold calculate_route_eta, try_except, mbind, M_bind, bind.
  rewrite Hlat, Hlon. simpl.
  eexists. split; [reflexivity|]. simpl. split_and!; try reflexivity.
  unfold co2_quantity.
  destruct (route_quantity_tons request) as [q|]; [|reflexivity].
  destruct (truthy q); reflexivity.
Qed.

(** Without one of the coordinates the route fails with the HTTP error
    400. *)
Lemma calculate_route_eta_no_destination request request_id (w : world A) :
  destination request !! "latitude" = None \/
  destination request !! "longitude" = None ->
  calculate_route_eta haversine_distance settings strftime_Ymd
                      request request_id w
  = (inl (HTTPException 400
            "Destination must include 'latitude' and 'longitude'"), w).
Proof.
  intros H. unfold calculate_route_eta, try_except.
  destruct (destination request !! "latitude") as [lat|];
    destruct (destination request !! "longitude") as [lon|];
    try reflexivity.
  destruct H; discriminate.
Qed.

(** The route estimate is never cached: the route leaves the response
    cache and the loaded supplier data as they were. *)
Lemma calculate_route_eta_frame request request_id (w : world A) :
  let w' := (calculate_route_eta haversine_distance settings strftime_Ymd
                                 request request_id w).2 in
  _cache w' = _cache w /\ _supplier_data_cache w' = _supplier_data_cache w.
Proof.
  cbv zeta. unfold calculate_route_eta, try_except, mbind, M_bind, bind.
  destruct (destination request !! "latitude") as [lat|];
    destruct (destination request !! "longitude") as [lon|];
    simpl; split; reflexivity.
Qed.

(** The estimate that the route returns, when it returns one. *)
Lemma calculate_route_eta_returned request request_id (w : world A)
    dest_lat dest_lon r :
  destination request !! "latitude" = Some dest_lat ->
  destination request !! "longitude" = Some dest_lon ->
  (calculate_route_eta haversine_distance settings strftime_Ymd
                       request request_id w).1 = inr r ->
  let distance :=
    haversine_distance (latitude (route_origin request))
                       (longitude (route_origin request)) dest_lat dest_lon in
  distance_km r = distance /\
  co2_kg r = calculate_co2_emissions (co2_quantity request) distance /\
  route_quality r
  = (if Qltb distance 10 then "optimal"
     else if Qltb distance 30 then "good" else "fair") /\
  duration_minutes r = Qtrunc (distance / 40 * 60).
Proof.
  intros Hlat Hlon Hr. cbv zeta.
  destruct (calculate_route_eta_run request request_id w _ _ Hlat Hlon)
    as (r' & Hrun & H).
  rewrite Hrun in Hr. injection Hr as <-. exact H.
Qed.

Lemma round2_is_hundredths q : hundredths (round2 q).
Proof. apply hundredths_iff. eexists. apply round2_eq. Qed.

Lemma round2_within q : Qabs (round2 q - q) <= 1 # 200.
Proof.
  pose proof (round2_error q) as [Hlo Hhi].
  apply Qabs_Qle_condition. split; lra.
Qed.

(** C7, as the code has it.  In every estimate that the route returns
    for a destination with both coordinates, [co2_kg] is the product
    quantity * distance * 0.06 rounded to 2 decimals: a whole number of
    hundredths within 0.005 of the product, for the distance of the
    estimate and for the request's quantity when it is given and not
    zero, for 10 tons when it is omitted; 10 tons over 100 km give
    exactly 60 kg. *)
Theorem route_co2_estimate request request_id (w : world A) dest_lat dest_lon r :
  destination request !! "latitude" = Some dest_lat ->
  destination request !! "longitude" = Some dest_lon ->
  (calculate_route_eta haversine_distance settings strftime_Ymd
                       request request_id w).1 = inr r ->
  distance_km r
  = haversine_distance (latitude (route_origin request))
                       (longitude (route_origin request)) dest_lat dest_lon /\
  hundredths (co2_kg r) /\
  (forall q, route_quantity_tons request = Some q -> ~ q == 0 ->
             Qabs (co2_kg r - q * distance_km r * (6 # 100)) <= 1 # 200) /\
  (route_quantity_tons request = None ->
   Qabs (co2_kg r - 10 * distance_km r * (6 # 100)) <= 1 # 200) /\
  (forall q, route_quantity_tons request = Some q -> q == 10 ->
             distance_km r == 100 -> co2_kg r == 60) /\
  (route_quantity_tons request = None -> distance_km r == 100 -> co2_kg r == 60).
Proof.
  intros Hlat Hlon Hr.
  destruct (calculate_route_eta_returned request request_id w _ _ r Hlat Hlon Hr)
    as (Hd & Hco2 & _).
  rewrite Hd. set (d := haversine_distance _ _ _ _) in *.
  unfold co2_quantity, calculate_co2_emissions, CO2_EMISSION_FACTOR in Hco2.
  assert (H60 : forall q, q == 10 -> d == 100 ->
                          round2 (q * d * (6 # 100)) == 60).
  { intros q Hq H100. rewrite Hq, H100. reflexivity. }
  split; [reflexivity|]. split; [rewrite Hco2; apply round2_is_hundredths|].
  split_and!.
  - intros q Hq Hnz. rewrite Hq in Hco2.
    apply truthy_true in Hnz. rewrite Hnz in Hco2.
    rewrite Hco2. apply round2_within.
  - intros Hq. rewrite Hq in Hco2. rewrite Hco2. apply round2_within.
  - intros q Hq H10 H100. rewrite Hq in Hco2.
    assert (Hnz : truthy q = true).
    { apply truthy_true. intros H0. rewrite H0 in H10. discriminate. }
    rewrite Hnz in Hco2. rewrite Hco2. apply H60; assumption.
  - intros Hq H100. rewrite Hq in Hco2. rewrite Hco2.
    apply H60; [reflexivity | exact H100].
Qed.

(** C8.  In every estimate that the route returns for a destination
    with both coordinates, the distance is the one between origin and
    destination and the route quality is its class: below 10 km
    "optimal", from 10 km to below 30 km "good", from 30 km "fair";
    exactly 10 km is "good" and exactly 30 km is "fair". *)
Theorem route_quality_classes request request_id (w : world A) dest_lat dest_lon r :
  destination request !! "latitude" = Some dest_lat ->
  destination request !! "longitude" = Some dest_lon ->
  (calculate_route_eta haversine_distance settings strftime_Ymd
                       request request_id w).1 = inr r ->
  let distance :=
    haversine_distance (latitude (route_origin request))
                       (longitude (route_origin request)) dest_lat dest_lon in
  distance_km r = distance /\
  (distance < 10 -> route_quality r = "optimal") /\
  (10 <= distance -> distance < 30 -> route_quality r = "good") /\
  (30 <= distance -> route_quality r = "fair") /\
  (distance == 10 -> route_quality r = "good") /\
  (distance == 30 -> route_quality r = "fair").
Proof.
  intros Hlat Hlon Hr. cbv zeta.
  destruct (calculate_route_eta_returned request request_id w _ _ r Hlat Hlon Hr)
    as (Hd & _ & Hq & _).
  rewrite Hq.
  set (d := haversine_distance _ _ _ _) in *.
  assert (Hopt : d < 10 -> Qltb d 10 = true) by (intros; apply Qltb_lt; lra).
  assert (Hnopt : 10 <= d -> Qltb d 10 = false) by (intros; apply Qltb_ge; lra).
  assert (Hgood : d < 30 -> Qltb d 30 = true) by (intros; apply Qltb_lt; lra).
  assert (Hfair : 30 <= d -> Qltb d 30 = false) by (intros; apply Qltb_ge; lra).
  split_and!; auto.
  - intros H. rewrite Hopt by lra. reflexivity.
  - intros H1 H2. rewrite Hnopt, Hgood by lra. reflexivity.
  - intros H. rewrite Hnopt, Hfair by lra. reflexivity.
  - intros H. rewrite Hnopt, Hgood by lra. reflexivity.
  - intros H. rewrite Hnopt, Hfair by lra. reflexivity.
Qed.



End RouteFacts.

(** On binary64 floats, too, the product of the example is exactly 60:
    the error of the literal [0.06] is rounded away. *)
#[warnings="-inexact-float"]
Example co2_example_binary64 :
  PrimFloat.eqb (PrimFloat.mul (PrimFloat.mul 10 100) 0.06) 60%float = true.
Proof. reflexivity. Qed.

Lemma route_co2_estimate_witness :
  exists r, example_eta 100 (Some 10) = inr r /\ co2_kg r == 60.
Proof.
  destruct (example_eta 100 (Some 10)) as [e | r] eqn:Hrun;
    [vm_compute in Hrun; discriminate|].
  exists r. split; [reflexivity|].
  destruct (route_co2_estimate (A := unit) (fun _ _ _ _ => 100) default_settings
              (fun _ => "20251108") (example_route (Some 10)) "req-000000abcdef"
              (new_world (fun _ => 0%Z) 24)
              (173345 # 10000) (784512 # 10000) r eq_refl eq_refl Hrun)
    as (Hd & _ & _ & _ & Hgiven & _).
  apply (Hgiven 10 eq_refl); [reflexivity | rewrite Hd; reflexivity].
Defined.

(** C7, as stated, fails on a quantity of 0: it is given, and the
    estimate over 100 km is the 60 kg of the 10-ton default, not
    [round(0 * 100 * 0.06, 2) = 0].  It also fails where the exact
    product is a tie: for 1 ton over 0.25 km the product is 0.015,
    which rounds to 0.02, but the binary64 product of the program lies
    below 0.015 and the program returns 0.01. *)
#[warnings="-inexact-float"]
Lemma route_co2_counterexample :
  (route_quantity_tons (example_route (Some 0)) = Some 0 /\
   (exists r, example_eta 100 (Some 0) = inr r /\ co2_kg r = 60) /\
   round2 (0 * 100 * (6 # 100)) = 0) /\
  (Binary64.calculate_co2_emissions 1 0.25 = 0.01%float /\
   round2 (1 * (25 # 100) * (6 # 100)) == 2 # 100).
Proof.
  split; split_and!; try reflexivity.
  eexists. split; reflexivity.
Qed.

Lemma route_quality_classes_witness :
  (exists r, example_eta 10 None = inr r /\ route_quality r = "good") /\
  (exists r, example_eta 30 None = inr r /\ route_quality r = "fair").
Proof.
  split.
  - destruct (example_eta 10 None) as [e | r] eqn:Hrun;
      [vm_compute in Hrun; discriminate|].
    exists r. split; [reflexivity|].
    destruct (route_quality_classes (A := unit) (fun _ _ _ _ => 10)
                default_settings (fun _ => "20251108") (example_route None)
                "req-000000abcdef" (new_world (fun _ => 0%Z) 24)
                (173345 # 10000) (784512 # 10000) r eq_refl eq_refl Hrun)
      as (_ & _ & _ & _ & Hgood & _).
    apply Hgood. reflexivity.
  - destruct (example_eta 30 None) as [e | r] eqn:Hrun;
      [vm_compute in Hrun; discriminate|].
    exists r. split; [reflexivity|].
    destruct (route_quality_classes (A := unit) (fun _ _ _ _ => 30)
                default_settings (fun _ => "20251108") (example_route None)
                "req-000000abcdef" (new_world (fun _ => 0%Z) 24)
                (173345 # 10000) (784512 # 10000) r eq_refl eq_refl Hrun)
      as (_ & _ & _ & _ & _ & Hfair).
    apply Hfair. reflexivity.
Defined.


(** ** Haversine distance *)

Module GeoMathFacts.
Import GeoMath.

Local Open Scope R_scope.

Local Ltac lra := Lra.lra.
Local Ltac nra := Lra.nra.

Lemma Rround_half_even_bounds x :
  IZR (round_half_even x) - 1 / 2 <= x <= IZR (round_half_even x) + 1 / 2.
Proof.
  unfold round_half_even. pose proof (Zfloor_bound x) as [Hlo Hhi].
  destruct (Rlt_dec (x - IZR (Zfloor x)) (1 / 2)) as [H1 | H1]; [lra|].
  destruct (Rlt_dec (1 / 2) (x - IZR (Zfloor x))) as [H2 | H2].
  - rewrite plus_IZR. lra.
  - destruct (Z.even (Zfloor x)); [|rewrite plus_IZR]; lra.
Qed.

Lemma Rround2_error x : x - 1 / 200 <= round2 x <= x + 1 / 200.
Proof.
  unfold round2. pose proof (Rround_half_even_bounds (x * 100)). lra.
Qed.

Lemma Rround2_0 : round2 0 = 0.
Proof.
  unfold round2, round_half_even. rewrite Rmult_0_l.
  change 0 with (IZR 0). rewrite ZfloorZ.
  destruct (Rlt_dec (IZR 0 - IZR 0) (1 / 2)) as [H | H]; [|exfalso; lra].
  unfold Rdiv. apply Rmult_0_l.
Qed.

Lemma radians_minus x y : radians (x - y) = radians x - radians y.
Proof. unfold radians. ring. Qed.

Lemma sin_half_sqr x : sin (x / 2) * sin (x / 2) = (1 - cos x) / 2.
Proof.
  pose proof (cos_2a_sin (x / 2)) as H.
  replace (2 * (x / 2)) with x in H by field. lra.
Qed.

(** The quantity [a] of the haversine formula is [(1 - S) / 2] for the
    cosine [S] of the central angle. *)
Lemma haversine_a_cos p1 p2 l1 l2 :
  1 - 2 * (sin ((p2 - p1) / 2) * sin ((p2 - p1) / 2)
           + cos p1 * cos p2 * sin ((l2 - l1) / 2) * sin ((l2 - l1) / 2))
  = sin p1 * sin p2 + cos p1 * cos p2 * cos (l2 - l1).
Proof.
  rewrite Rmult_assoc, !sin_half_sqr, cos_minus. field.
Qed.

Lemma central_cos_bound p1 p2 l :
  -1 <= sin p1 * sin p2 + cos p1 * cos p2 * cos l <= 1.
Proof.
  pose proof (COS_bound l) as [Hl1 Hl2].
  pose proof (COS_bound (p1 - p2)) as [Hm1 Hm2].
  pose proof (COS_bound (p1 + p2)) as [Hp1 Hp2].
  rewrite cos_minus in Hm1, Hm2. rewrite cos_plus in Hp1, Hp2.
  set (c := cos p1 * cos p2) in *. set (s := sin p1 * sin p2) in *.
  set (t := cos l) in *.
  assert (E : s + c * t = (1 + t) / 2 * (c + s) + (1 - t) / 2 * (- (c - s)))
    by field.
  rewrite E. split; nra.
Qed.

Lemma asin_nonneg x : 0 <= x <= 1 -> 0 <= asin x.
Proof.
  intros Hx. pose proof (asin_bound x) as [Hlo Hhi].
  destruct (Rle_dec 0 (asin x)) as [H | H]; [exact H|].
  exfalso. assert (Hs : sin (asin x) < 0).
  { apply sin_lt_0_var; [|lra]. pose proof PI_RGT_0. lra. }
  rewrite sin_asin in Hs; lra.
Qed.

(** [2 * atan2(sqrt a, sqrt(1 - a))] is the angle in [[0, PI]] whose
    cosine is [1 - 2 * a]. *)
Lemma haversine_angle a :
  0 <= a <= 1 -> 2 * atan2 (sqrt a) (sqrt (1 - a)) = acos (1 - 2 * a).
Proof.
  intros [Ha0 Ha1]. unfold atan2.
  destruct (Req_dec a 1) as [-> | Hne].
  - replace (1 - 1) with 0 by ring. rewrite sqrt_0, sqrt_1.
    destruct (Rlt_dec 0 0) as [H | _]; [exfalso; lra|].
    destruct (Rlt_dec 0 1) as [_ | H]; [|exfalso; lra].
    replace (1 - 2 * 1) with (Ropp 1) by ring.
    rewrite acos_opp, acos_1. field.
  - assert (Hlt : a < 1) by lra.
    assert (Hs : 0 < sqrt (1 - a)) by (apply sqrt_lt_R0; lra).
    destruct (Rlt_dec 0 (sqrt (1 - a))) as [_ | H]; [|contradiction].
    assert (Hsa : 0 <= sqrt a < 1).
    { split; [apply sqrt_pos|].
      rewrite <- sqrt_1. apply sqrt_lt_1_alt. lra. }
    assert (Hsq : (sqrt a)² = a) by (unfold Rsqr; apply sqrt_sqrt; lra).
    assert (Hasin : atan (sqrt a / sqrt (1 - a)) = asin (sqrt a)).
    { rewrite asin_atan by lra. rewrite Hsq. reflexivity. }
    rewrite Hasin.
    pose proof (asin_nonneg (sqrt a)) as Hpos.
    pose proof (asin_bound (sqrt a)) as [_ Hhi].
    rewrite <- (acos_cos (2 * asin (sqrt a))) by lra.
    f_equal. rewrite cos_2a_sin, sin_asin by lra.
    unfold Rsqr in Hsq. lra.
Qed.

(** The two arguments of [math.sqrt] are never negative: the square
    roots of the formula are defined for all coordinates. *)
Lemma haversine_sqrt_defined lat1 lon1 lat2 lon2 :
  let a := sin (radians (lat2 - lat1) / 2) * sin (radians (lat2 - lat1) / 2)
           + cos (radians lat1) * cos (radians lat2)
             * sin (radians (lon2 - lon1) / 2) * sin (radians (lon2 - lon1) / 2) in
  0 <= a /\ 0 <= 1 - a.
Proof.
  cbv zeta. rewrite !radians_minus.
  pose proof (haversine_a_cos (radians lat1) (radians lat2)
                (radians lon1) (radians lon2)) as Ha.
  pose proof (central_cos_bound (radians lat1) (radians lat2)
                (radians lon2 - radians lon1)) as Hb.
  lra.
Qed.

(** The distance before rounding is the great-circle distance. *)
Lemma haversine_unrounded lat1 lon1 lat2 lon2 :
  haversine_distance lat1 lon1 lat2 lon2
  = round2 (great_circle_distance EARTH_RADIUS_KM lat1 lon1 lat2 lon2).
Proof.
  unfold haversine_distance, great_circle_distance, central_angle. cbv zeta.
  rewrite !radians_minus.
  set (p1 := radians lat1). set (p2 := radians lat2).
  set (l1 := radians lon1). set (l2 := radians lon2).
  pose proof (haversine_a_cos p1 p2 l1 l2) as Ha.
  pose proof (central_cos_bound p1 p2 (l2 - l1)) as Hb.
  set (a := sin ((p2 - p1) / 2) * sin ((p2 - p1) / 2)
            + cos p1 * cos p2 * sin ((l2 - l1) / 2) * sin ((l2 - l1) / 2)) in *.
  rewrite haversine_angle by lra.
  rewrite Ha. reflexivity.
Qed.

(** Over the real numbers the formula is what its documentation says.
    The haversine distance is symmetric and zero between a point and
    itself, and it is the great-circle distance on a sphere of radius
    6371 km between the two points given in degrees, rounded to 2
    decimals: a whole number of hundredths within 0.005 of it. *)
Theorem haversine_distance_great_circle lat1 lon1 lat2 lon2 :
  haversine_distance lat1 lon1 lat2 lon2
  = haversine_distance lat2 lon2 lat1 lon1 /\
  haversine_distance lat1 lon1 lat1 lon1 = 0 /\
  haversine_distance lat1 lon1 lat2 lon2
  = round2 (great_circle_distance 6371 lat1 lon1 lat2 lon2) /\
  (exists n : Z, haversine_distance lat1 lon1 lat2 lon2 = IZR n / 100) /\
  Rabs (haversine_distance lat1 lon1 lat2 lon2
        - great_circle_distance 6371 lat1 lon1 lat2 lon2) <= 1 / 200.
Proof.
  split; [|split; [|split; [|split]]].
  - rewrite !haversine_unrounded.
    unfold great_circle_distance, central_angle. do 3 f_equal.
    rewrite (Rmult_comm (sin (radians lat1))).
    rewrite (Rmult_comm (cos (radians lat1))).
    do 2 f_equal.
    replace (radians lon1 - radians lon2)
      with (- (radians lon2 - radians lon1)) by ring.
    apply eq_sym, cos_neg.
  - rewrite haversine_unrounded.
    unfold great_circle_distance, central_angle.
    replace (radians lon1 - radians lon1) with 0 by ring.
    rewrite cos_0, Rmult_1_r.
    replace (sin (radians lat1) * sin (radians lat1)
             + cos (radians lat1) * cos (radians lat1))
      with ((sin (radians lat1))² + (cos (radians lat1))²)
      by (unfold Rsqr; ring).
    rewrite sin2_cos2, acos_1, Rmult_0_r. apply Rround2_0.
  - apply haversine_unrounded.
  - eexists. unfold haversine_distance, round2. reflexivity.
  - rewrite haversine_unrounded. fold EARTH_RADIUS_KM.
    pose proof (Rround2_error
                  (great_circle_distance EARTH_RADIUS_KM lat1 lon1 lat2 lon2)).
    apply Rabs_le. lra.
Qed.

End GeoMathFacts.

(** C9, where the code fails.  Over the real numbers the term [a] of the
    formula stays within [0, 1] (see [haversine_sqrt_defined]); in
    binary64 it does not.  For the points (82, 0) and (-82, 180), which
    are nearly opposite on the sphere, [math.sin] and [math.cos] give
    the sine -0x1.fb046a930947ap-1 of half the latitude difference, the
    cosine 0x1.1d06c968d9e1ap-3 of either latitude and the sine 1 of
    half the longitude difference; the sum [a] is rounded to the number
    just above 1, so that [1 - a] is negative and [math.sqrt] raises
    [ValueError]: the function returns no distance for these two
    points, in either order. *)
Theorem haversine_antipodal_domain_error :
  Binary64.haversine_a (-0x1.fb046a930947ap-1) 0x1.1d06c968d9e1ap-3
                       0x1.1d06c968d9e1ap-3 1
  = 0x1.0000000000001p+0%float /\
  Binary64.haversine_sqrt_1_a (-0x1.fb046a930947ap-1) 0x1.1d06c968d9e1ap-3
                              0x1.1d06c968d9e1ap-3 1
  = inl (ValueError "math domain error") /\
  Binary64.haversine_sqrt_1_a 0x1.fb046a930947ap-1 0x1.1d06c968d9e1ap-3
                              0x1.1d06c968d9e1ap-3 (-1)
  = inl (ValueError "math domain error").
Proof. split_and!; reflexivity. Qed.


(** * Further properties *)

(** ** Delivery estimate *)

Lemma Qmax_cases a b :
  (b <= a /\ Qmax a b = a) \/ (a < b /\ Qmax a b = b).
Proof.
  unfold Qmax, GenericMinMax.gmax. destruct (Qcompare a b) eqn:E.
  - left. apply Qeq_alt in E. split; [lra | reflexivity].
  - right. apply Qlt_alt in E. split; [lra | reflexivity].
  - left. apply Qgt_alt in E. split; [lra | reflexivity].
Qed.

Lemma Qceiling_half : Qceiling (1 # 2) = 1%Z.
Proof. reflexivity. Qed.

Lemma Qceiling_unit x : 0 < x -> x <= 1 -> Qceiling x = 1%Z.
Proof.
  intros H0 H1.
  pose proof (Qle_ceiling x) as Hle. pose proof (Qceiling_lt x) as Hlt.
  assert (Hlo : (0 < Qceiling x)%Z).
  { rewrite Zlt_Qlt. change (inject_Z 0) with 0. lra. }
  assert (Hhi : (Qceiling x - 1 < 1)%Z).
  { rewrite Zlt_Qlt. change (inject_Z 1) with 1. lra. }
  lia.
Qed.

Lemma travel_days_mono d d' :
  d <= d' ->
  Qmax (1 # 2) (d / AVG_SPEED_KM_PER_DAY) <= Qmax (1 # 2) (d' / AVG_SPEED_KM_PER_DAY).
Proof.
  intros H. apply Q.max_le_compat_l. unfold AVG_SPEED_KM_PER_DAY.
  apply Qmult_le_compat_r; [exact H | discriminate].
Qed.

(** X1.  [estimate_delivery_eta] always adds at least one travel day to
    the lead time, exactly one up to 300 km (and for a negative
    distance), never fewer days for a longer distance, and beyond 300 km
    the least number of days that covers the distance at 300 km a day. *)
Theorem estimate_delivery_eta_days distance base :
  (base + 1 <= estimate_delivery_eta distance base)%Z /\
  (distance <= 300 -> estimate_delivery_eta distance base = (base + 1)%Z) /\
  (forall distance', distance <= distance' ->
     (estimate_delivery_eta distance base
      <= estimate_delivery_eta distance' base)%Z) /\
  distance <= 300 * inject_Z (estimate_delivery_eta distance base - base) /\
  (300 < distance ->
   300 * inject_Z (estimate_delivery_eta distance base - base - 1) < distance).
Proof.
  unfold estimate_delivery_eta. cbv zeta.
  set (x := distance / AVG_SPEED_KM_PER_DAY).
  assert (Hx : distance == 300 * x).
  { unfold x, AVG_SPEED_KM_PER_DAY. field. }
  split_and!.
  - assert (H : (1 <= Qceiling (Qmax (1 # 2) x))%Z).
    { rewrite <- Qceiling_half. apply Qceiling_resp_le, Q.le_max_l. }
    lia.
  - intros Hd. f_equal.
    destruct (Qmax_cases (1 # 2) x) as [[_ ->] | [Hlt ->]].
    + reflexivity.
    + apply Qceiling_unit; lra.
  - intros d' Hd'. apply Z.add_le_mono_l, Qceiling_resp_le, travel_days_mono, Hd'.
  - replace (base + Qceiling (Qmax (1 # 2) x) - base)%Z
      with (Qceiling (Qmax (1 # 2) x)) by lia.
    pose proof (Qle_ceiling (Qmax (1 # 2) x)) as Hc.
    pose proof (Q.le_max_r (1 # 2) x) as Hm. lra.
  - intros Hd.
    replace (base + Qceiling (Qmax (1 # 2) x) - base - 1)%Z
      with (Qceiling (Qmax (1 # 2) x) - 1)%Z by lia.
    pose proof (Qceiling_lt (Qmax (1 # 2) x)) as Hc.
    destruct (Qmax_cases (1 # 2) x) as [[Hle E] | [Hlt E]];
      rewrite E in *; lra.
Qed.

(** ** Response cache: invalidation, overwriting, statistics *)

Section CacheMore.
Context {A : Type}.
Variable _generate_key : gmap string kwarg -> string.

Let get := CacheManager.get (A := A) _generate_key.
Let set := CacheManager.set (A := A) _generate_key.
Let delete := CacheManager.delete (A := A) _generate_key.

(** What a lookup returns depends on the clock and on the entry under
    its own key only. *)
Lemma get_result_local kwargs (w1 w2 : world A) :
  clock w1 = clock w2 -> ticks w1 = ticks w2 ->
  _cache w1 !! _generate_key kwargs = _cache w2 !! _generate_key kwargs ->
  (get kwargs w1).1 = (get kwargs w2).1.
Proof.
  intros Hc Ht He. unfold get.
  destruct (_cache w2 !! _generate_key kwargs) as [e|] eqn:E2.
  - destruct (Z_lt_le_dec (entry_expiry e) (clock w2 (ticks w2))) as [Hlt | Hle].
    + rewrite (get_expired _ kwargs w2 e E2 Hlt).
      rewrite (get_expired _ kwargs w1 e He); [reflexivity|].
      rewrite Hc, Ht. exact Hlt.
    + rewrite (get_fresh _ kwargs w2 e E2 Hle).
      rewrite (get_fresh _ kwargs w1 e He); [|rewrite Hc, Ht; exact Hle].
      simpl. rewrite Hc, Ht. reflexivity.
  - rewrite (get_absent _ kwargs w2 E2), (get_absent _ kwargs w1 He).
    reflexivity.
Qed.

Lemma delete_run kwargs (w : world A) :
  (delete kwargs w).1 = inr tt /\
  clock (delete kwargs w).2 = clock w /\
  ticks (delete kwargs w).2 = ticks w /\
  _cache (delete kwargs w).2 = base.delete (_generate_key kwargs) (_cache w) /\
  _supplier_data_cache (delete kwargs w).2 = _supplier_data_cache w.
Proof.
  unfold delete, CacheManager.delete, mbind, M_bind, bind, read_cache. simpl.
  destruct (_cache w !! _generate_key kwargs) as [e|] eqn:E; simpl.
  - split_and!; reflexivity.
  - split_and!; try reflexivity. symmetry. apply delete_id. exact E.
Qed.

(** X2.  [delete] never fails, also when there is no entry to delete;
    afterwards a lookup with the same parameters misses, whatever the
    expiry time of the deleted entry was, and a lookup under any other
    key returns what it would have returned before. *)
Theorem cache_delete_invalidates kwargs (w : world A) :
  let w' := (delete kwargs w).2 in
  (delete kwargs w).1 = inr tt /\
  _cache w' !! _generate_key kwargs = None /\
  (get kwargs w').1 = inr None /\
  (forall kwargs',
      _generate_key kwargs' <> _generate_key kwargs ->
      _cache w' !! _generate_key kwargs' = _cache w !! _generate_key kwargs' /\
      (get kwargs' w').1 = (get kwargs' w).1).
Proof.
  cbv zeta. destruct (delete_run kwargs w) as (Hr & Hc & Ht & Hd & _).
  assert (Hnone : _cache (delete kwargs w).2 !! _generate_key kwargs = None).
  { rewrite Hd. apply lookup_delete_eq. }
  split_and!.
  - exact Hr.
  - exact Hnone.
  - unfold get. rewrite (get_absent _ kwargs _ Hnone). reflexivity.
  - intros kwargs' Hne.
    assert (Hsame : _cache (delete kwargs w).2 !! _generate_key kwargs'
                    = _cache w !! _generate_key kwargs').
    { rewrite Hd. apply lookup_delete_ne. congruence. }
    split; [exact Hsame|]. apply get_result_local; assumption.
Qed.

(** X3.  After [clear] every lookup misses, and the cache is empty. *)
Theorem cache_clear_empties (w : world A) :
  let w' := (CacheManager.clear (A := A) w).2 in
  (CacheManager.clear (A := A) w).1 = inr tt /\
  _cache w' = ∅ /\
  (forall kwargs, get kwargs w' = (inr None, w')).
Proof.
  cbv zeta. split_and!; reflexivity.
Qed.

(** X4.  The last write wins: a second [set] under the same key replaces
    the data, the creation time and the expiry time of the entry, the
    number of entries stays the same, and the entries under other keys
    stay as they were.  Parameters with the same generated key share
    the entry. *)
Theorem cache_set_overwrites (data1 data2 : A) ttl1 ttl2 kwargs (w : world A) :
  let w1 := (set data1 ttl1 kwargs w).2 in
  let w2 := (set data2 ttl2 kwargs w1).2 in
  _cache w2 !! _generate_key kwargs
  = Some (Entry data2 (clock w (S (S (ticks w))))
                (clock w (S (S (S (ticks w)))) + effective_ttl w ttl2)%Z) /\
  size (_cache w2) = size (_cache w1) /\
  (forall key, key <> _generate_key kwargs -> _cache w2 !! key = _cache w !! key) /\
  (forall kwargs', _generate_key kwargs' = _generate_key kwargs ->
                   (get kwargs' w2).1 = (get kwargs w2).1).
Proof.
  cbv zeta. unfold set. rewrite !set_run. simpl. split_and!.
  - apply lookup_insert_eq.
  - rewrite insert_insert_eq. rewrite !map_size_insert. reflexivity.
  - intros key Hne. rewrite !lookup_insert_ne by congruence. reflexivity.
  - intros kwargs' Hk. unfold get, CacheManager.get. rewrite Hk. reflexivity.
Qed.

Lemma get_stats_run (w : world A) :
  get_stats w
  = (inr {| total_entries := Z.of_nat (size (_cache w));
            active_entries :=
              (Z.of_nat (size (_cache w))
               - Z.of_nat (size (filter (fun kv : string * entry A =>
                                           (entry_expiry kv.2 < clock w (ticks w))%Z)
                                        (_cache w))))%Z;
            expired_entries :=
              Z.of_nat (size (filter (fun kv : string * entry A =>
                                        (entry_expiry kv.2 < clock w (ticks w))%Z)
                                     (_cache w)));
            ttl_hours := (_default_ttl w # 1000000) / 3600 |},
     World (clock w) (S (ticks w)) (_cache w) (_default_ttl w)
           (_supplier_data_cache w)).
Proof. reflexivity. Qed.

(** X5.  [get_stats] reads the clock once and changes nothing in the
    cache: it counts the expired entries and leaves them in place.  The
    active and the expired entries add up to the total, neither count is
    negative, and no entry is counted as expired exactly when every
    expiry time is at or after the reading. *)
Theorem cache_stats_consistent (w : world A) :
  exists st,
    (get_stats w).1 = inr st /\
    _cache (get_stats w).2 = _cache w /\
    total_entries st = Z.of_nat (size (_cache w)) /\
    (active_entries st + expired_entries st = total_entries st)%Z /\
    (0 <= expired_entries st <= total_entries st)%Z /\
    (0 <= active_entries st)%Z /\
    (expired_entries st = 0%Z <->
     forall key e, _cache w !! key = Some e ->
                   (clock w (ticks w) <= entry_expiry e)%Z).
Proof.
  rewrite get_stats_run. simpl. eexists. split; [reflexivity|]. simpl.
  pose proof (map_size_filter
                (fun kv : string * entry A =>
                   (entry_expiry kv.2 < clock w (ticks w))%Z) (_cache w)) as Hle.
  split_and!; try reflexivity; try lia.
  split.
  - intros H0 key e He.
    assert (Hempty : filter (fun kv : string * entry A =>
                               (entry_expiry kv.2 < clock w (ticks w))%Z)
                            (_cache w) = ∅).
    { apply map_size_empty_iff. lia. }
    rewrite map_empty_filter in Hempty.
    specialize (Hempty key e He). simpl in Hempty. lia.
  - intros Hall.
    assert (Hempty : filter (fun kv : string * entry A =>
                               (entry_expiry kv.2 < clock w (ticks w))%Z)
                            (_cache w) = ∅).
    { apply map_empty_filter. intros key e He. simpl.
      specialize (Hall key e He). lia. }
    rewrite Hempty, map_size_empty. reflexivity.
Qed.

(** X6.  Lazy expiry seen through the statistics: an entry whose expiry
    time has passed is counted by [get_stats] and is still stored; the
    [get] that looks it up misses and removes it, and the statistics
    taken next count one entry less. *)
Theorem cache_stats_after_eviction kwargs (w : world A) e :
  _cache w !! _generate_key kwargs = Some e ->
  (entry_expiry e < clock w (ticks w))%Z ->
  (entry_expiry e < clock w (S (ticks w)))%Z ->
  let after_stats := (get_stats w).2 in
  let after_get := (get kwargs after_stats).2 in
  exists st1 st2,
    (get_stats w).1 = inr st1 /\
    (1 <= expired_entries st1)%Z /\
    _cache after_stats !! _generate_key kwargs = Some e /\
    (get kwargs after_stats).1 = inr None /\
    (get_stats after_get).1 = inr st2 /\
    total_entries st2 = (total_entries st1 - 1)%Z.
Proof.
  intros He Hexp Hexp'. cbv zeta. rewrite get_stats_run. simpl.
  set (w1 := World (clock w) (S (ticks w)) (_cache w) (_default_ttl w)
                   (_supplier_data_cache w)).
  unfold get. rewrite (get_expired _ kwargs w1 e He Hexp'). simpl.
  do 2 eexists. split_and!; try reflexivity.
  - simpl.
    assert (Hin : filter (fun kv : string * entry A =>
                            (entry_expiry kv.2 < clock w (ticks w))%Z)
                         (_cache w) !! _generate_key kwargs = Some e).
    { apply map_lookup_filter_Some. split; [exact He | exact Hexp]. }
    destruct (size (filter _ (_cache w))) eqn:Hsize; [|lia].
    apply map_size_empty_iff in Hsize. rewrite Hsize, lookup_empty in Hin.
    discriminate.
  - exact He.
  - simpl. rewrite map_size_delete_Some by (rewrite He; eauto).
    assert (Hpos : (0 < size (_cache w))%nat).
    { destruct (size (_cache w)) eqn:Hsize; [|lia].
      apply map_size_empty_iff in Hsize. rewrite Hsize, lookup_empty in He.
      discriminate. }
    lia.
Qed.

(** X7.  A hit reports the whole seconds between the creation time of
    the entry and the clock reading taken for the age; it is not
    negative when that reading is not before the creation time, and the
    read leaves the stored entries as they were. *)
Theorem cache_hit_age kwargs (w : world A) e :
  _cache w !! _generate_key kwargs = Some e ->
  (clock w (ticks w) <= entry_expiry e)%Z ->
  (entry_cached_at e <= clock w (S (S (ticks w))))%Z ->
  exists h,
    (get kwargs w).1 = inr (Some h) /\
    hit_data h = entry_data e /\
    cache_hit h = true /\
    (0 <= age_seconds h)%Z /\
    (age_seconds h * 1000000
     <= clock w (S (S (ticks w))) - entry_cached_at e
     < (age_seconds h + 1) * 1000000)%Z /\
    _cache (get kwargs w).2 = _cache w.
Proof.
  intros He Hfresh Hmono. unfold get. rewrite (get_fresh _ kwargs w e He Hfresh).
  simpl. eexists. split; [reflexivity|]. simpl.
  unfold total_seconds_int.
  set (d := (clock w (S (S (ticks w))) - entry_cached_at e)%Z).
  assert (Hd : (0 <= d)%Z) by (unfold d; lia).
  rewrite Z.quot_div_nonneg by lia.
  pose proof (Z.div_pos d 1000000 Hd ltac:(lia)) as Hq.
  pose proof (Z.mul_div_le d 1000000 ltac:(lia)) as Hlo.
  pose proof (Z.mul_succ_div_gt d 1000000 ltac:(lia)) as Hhi.
  split_and!; try reflexivity; lia.
Qed.

End CacheMore.

Lemma cache_stats_after_eviction_witness :
  (CacheManager.get (fun _ => "key") ∅ (get_stats (sample_cache 0 (-1))).2).1
  = inr None /\
  exists st, (get_stats (sample_cache 0 (-1))).1 = inr st /\
             (1 <= expired_entries st)%Z.
Proof.
  destruct (cache_stats_after_eviction (fun _ => "key") ∅ (sample_cache 0 (-1))
              (Entry "bundle" 0%Z (-3600000000)%Z))
    as (st1 & st2 & Hst1 & Hexp & _ & Hget & _).
  - reflexivity.
  - reflexivity.
  - reflexivity.
  - split; [exact Hget|]. exists st1. split; assumption.
Defined.

Lemma cache_hit_age_witness :
  exists h,
    (CacheManager.get (fun _ => "key") ∅ (sample_cache 30000000 24)).1
    = inr (Some h) /\
    age_seconds h = 120%Z.
Proof.
  destruct (cache_hit_age (fun _ => "key") ∅ (sample_cache 30000000 24)
              (Entry "bundle" 0%Z (30000000 + 86400000000)%Z))
    as (h & Hget & _ & _ & _ & Hage & _).
  - reflexivity.
  - vm_compute. discriminate.
  - vm_compute. discriminate.
  - exists h. split; [exact Hget|].
    change (clock (sample_cache 30000000 24)
                  (S (S (ticks (sample_cache 30000000 24)))))
      with 120000000%Z in Hage.
    simpl in Hage. lia.
Defined.

(** ** Supplier catalogue *)

Section LoadMore.
Context {A : Type}.
Variable current_dir : string.
Variable read_file : string -> file_result.

(** The outcomes of [load_supplier_data], case by case. *)
Lemma load_supplier_data_cases material_id (w : world A) :
  load_supplier_data current_dir read_file material_id w
  = match _supplier_data_cache w !! lower material_id with
    | Some data => (inr data, w)
    | None =>
        match MATERIAL_FILE_MAP !! lower material_id with
        | None => (inl (ValueError ("Unknown material_id: " ++ material_id)), w)
        | Some filename =>
            match read_file (current_dir ++ "/data/" ++ filename) with
            | Parsed data =>
                (inr data,
                 World (clock w) (ticks w) (_cache w) (_default_ttl w)
                       (<[lower material_id := data]> (_supplier_data_cache w)))
            | NoSuchFile =>
                (inl (FileNotFoundError
                        ("Supplier data file not found: "
                         ++ current_dir ++ "/data/" ++ filename)), w)
            | InvalidJSON err =>
                (inl (ValueError ("Invalid JSON in supplier data file: " ++ err)), w)
            end
        end
    end.
Proof.
  unfold load_supplier_data, mbind, M_bind, bind, read_supplier_data_cache.
  simpl.
  destruct (_supplier_data_cache w !! lower material_id); [reflexivity|].
  destruct (MATERIAL_FILE_MAP !! lower material_id); [|reflexivity].
  destruct (read_file _); reflexivity.
Qed.

(** A load touches neither the clock nor the response cache. *)
Lemma load_supplier_data_frame material_id (w : world A) :
  let w' := (load_supplier_data current_dir read_file material_id w).2 in
  clock w' = clock w /\ ticks w' = ticks w /\ _cache w' = _cache w /\
  _default_ttl w' = _default_ttl w.
Proof.
  cbv zeta. rewrite load_supplier_data_cases.
  destruct (_supplier_data_cache w !! lower material_id); [auto|].
  destruct (MATERIAL_FILE_MAP !! lower material_id); [|auto].
  destruct (read_file _); auto.
Qed.

(** X8.  How a load fails.  A material that is not loaded yet, whose
    identifier (of ASCII characters) the file map does not know, makes
    the load raise [ValueError]; a mapped data file that is missing
    makes it raise [FileNotFoundError] with the path, and one that is
    not valid JSON [ValueError] with the parser's message.  Whenever
    a load fails the state is as it was and the material is still not
    loaded, so that the failure is not remembered and the next call
    tries again. *)
Theorem load_supplier_data_failure material_id (w : world A) :
  let load := load_supplier_data current_dir read_file material_id in
  (forall e w', load w = (inl e, w') ->
                w' = w /\ _supplier_data_cache w !! lower material_id = None) /\
  (_supplier_data_cache w !! lower material_id = None ->
   (isascii material_id = true ->
    MATERIAL_FILE_MAP !! lower material_id = None ->
    load w = (inl (ValueError ("Unknown material_id: " ++ material_id)), w)) /\
   (forall filename,
       MATERIAL_FILE_MAP !! lower material_id = Some filename ->
       (read_file (current_dir ++ "/data/" ++ filename) = NoSuchFile ->
        load w = (inl (FileNotFoundError
                         ("Supplier data file not found: "
                          ++ current_dir ++ "/data/" ++ filename)), w)) /\
       (forall err,
           read_file (current_dir ++ "/data/" ++ filename) = InvalidJSON err ->
           load w = (inl (ValueError
                            ("Invalid JSON in supplier data file: " ++ err)), w)))).
Proof.
  cbv zeta. split.
  - intros e w'. rewrite load_supplier_data_cases.
    destruct (_supplier_data_cache w !! lower material_id); [discriminate|].
    destruct (MATERIAL_FILE_MAP !! lower material_id) as [filename|].
    + destruct (read_file (current_dir ++ "/data/" ++ filename));
        intros H; try discriminate; injection H as _ <-; auto.
    + intros H. injection H as _ <-. auto.
  - intros Hnew. rewrite load_supplier_data_cases, Hnew. split.
    + intros _ Hmap. rewrite Hmap. reflexivity.
    + intros filename Hmap. rewrite Hmap. split.
      * intros Hfile. rewrite Hfile. reflexivity.
      * intros err Hfile. rewrite Hfile. reflexivity.
Qed.

(** A load keeps the loaded catalogues in line with their files. *)
Lemma load_supplier_data_from_files material_id :
  preserves (A := A) (loaded_from_files current_dir read_file)
            (load_supplier_data current_dir read_file material_id).
Proof.
  intros w H. rewrite load_supplier_data_cases.
  destruct (_supplier_data_cache w !! lower material_id); [exact H|].
  destruct (MATERIAL_FILE_MAP !! lower material_id) as [filename|] eqn:Hmap;
    [|exact H].
  destruct (read_file (current_dir ++ "/data/" ++ filename)) eqn:Hfile;
    try exact H.
  intros key d. simpl. rewrite lookup_insert.
  destruct (decide (lower material_id = key)) as [<- | Hne].
  - intros Hd. injection Hd as <-. exists filename. split; assumption.
  - apply H.
Qed.

End LoadMore.

(** X9.  A catalogue is read once: after a load that succeeded, every
    later load of the same material, in any letter case, returns the
    same data and changes nothing, whatever has become of the file. *)
Theorem load_supplier_data_cached {A} current_dir read_file material_id
    (w w1 : world A) data :
  load_supplier_data current_dir read_file material_id w = (inr data, w1) ->
  forall current_dir' read_file' material_id',
    lower material_id' = lower material_id ->
    load_supplier_data current_dir' read_file' material_id' w1 = (inr data, w1).
Proof.
  rewrite load_supplier_data_cases. intros Hload cd' rf' m' Hm.
  rewrite load_supplier_data_cases, Hm.
  destruct (_supplier_data_cache w !! lower material_id) as [d|] eqn:Hd.
  - injection Hload as Hdata Hw. subst d w1. rewrite Hd. reflexivity.
  - destruct (MATERIAL_FILE_MAP !! lower material_id); [|discriminate].
    destruct (read_file _); try discriminate.
    injection Hload as Hdata Hw. subst w1. simpl.
    rewrite lookup_insert_eq. subst. reflexivity.
Qed.

(** A missing data file: the load fails and the next one tries again. *)
Example load_supplier_data_missing_file :
  load_supplier_data (A := unit) "/srv" (fun _ => NoSuchFile) "Cement"
    (new_world (fun _ => 0%Z) 24)
  = (inl (FileNotFoundError
            "Supplier data file not found: /srv/data/cement_suppliers_mock.json"),
     new_world (fun _ => 0%Z) 24).
Proof. reflexivity. Qed.

Lemma load_supplier_data_cached_witness :
  load_supplier_data (A := unit) "/tmp" (fun _ => NoSuchFile) "CEMENT"
    (load_supplier_data (A := unit) "/srv" (fun _ => Parsed example_catalogue)
       "Cement" (new_world (fun _ => 0%Z) 24)).2
  = (inr example_catalogue,
     (load_supplier_data (A := unit) "/srv" (fun _ => Parsed example_catalogue)
        "Cement" (new_world (fun _ => 0%Z) 24)).2).
Proof.
  apply (load_supplier_data_cached (A := unit) "/srv"
           (fun _ => Parsed example_catalogue) "Cement"
           (new_world (fun _ => 0%Z) 24)).
  - reflexivity.
  - reflexivity.
Defined.

(** ** The Supplier model *)

Lemma Supplier_lookup d k :
  k ∈ supplier_fields -> Supplier d !! k = d !! k.
Proof.
  intros Hk. unfold Supplier. rewrite map_lookup_filter.
  destruct (d !! k) as [v|]; [|reflexivity]. simpl.
  rewrite option_guard_True by exact Hk. reflexivity.
Qed.

Lemma Supplier_lookup_other d k :
  k ∉ supplier_fields -> Supplier d !! k = None.
Proof.
  intros Hk. unfold Supplier. rewrite map_lookup_filter.
  destruct (d !! k) as [v|]; [|reflexivity]. simpl.
  rewrite option_guard_False by exact Hk. reflexivity.
Qed.

Lemma Supplier_stock d : stock (Supplier d) = stock d.
Proof.
  unfold stock, dict_get. rewrite Supplier_lookup; [reflexivity|].
  unfold supplier_fields. repeat constructor.
Qed.

Lemma Supplier_criterion d c :
  c ∈ default_criteria -> criterion (Supplier d) c = criterion d c.
Proof.
  intros Hc. unfold criterion. rewrite Supplier_lookup; [reflexivity|].
  unfold default_criteria, supplier_fields in *.
  repeat (apply elem_of_cons in Hc as [-> | Hc]; [repeat constructor|]).
  inversion Hc.
Qed.

Lemma Supplier_rank_le s t : rank_le (Supplier s) (Supplier t) <-> rank_le s t.
Proof.
  unfold rank_le.
  rewrite !Supplier_criterion by (unfold default_criteria; repeat constructor).
  reflexivity.
Qed.

(** The annotations of a split plan are no fields of the model. *)
Lemma Supplier_split s a : Supplier (split_supplier s a) = Supplier s.
Proof.
  apply map_eq. intros k. unfold split_supplier.
  destruct (decide (k ∈ supplier_fields)) as [Hk | Hk].
  - rewrite !Supplier_lookup by exact Hk.
    rewrite !lookup_insert_ne; [reflexivity | |];
      intros <-; revert Hk; unfold supplier_fields;
      rewrite !elem_of_cons, elem_of_nil; intros Hk;
      repeat (destruct Hk as [Hk | Hk]; [discriminate|]); exact Hk.
  - rewrite !Supplier_lookup_other by exact Hk. reflexivity.
Qed.

Lemma filter_eligible_Supplier l q :
  filter_eligible_suppliers (map Supplier l) q
  = map Supplier (filter_eligible_suppliers l q).
Proof.
  unfold filter_eligible_suppliers.
  induction l as [|s l IH]; [reflexivity|]. simpl.
  fold (stock (Supplier s)). fold (stock s). rewrite Supplier_stock.
  destruct (Qleb q (stock s)); simpl; rewrite IH; reflexivity.
Qed.

Lemma filter_stocked_Supplier l :
  List.filter (fun s => Qltb 0 (stock s)) (map Supplier l)
  = map Supplier (List.filter (fun s => Qltb 0 (stock s)) l).
Proof.
  induction l as [|s l IH]; [reflexivity|]. simpl.
  rewrite Supplier_stock.
  destruct (Qltb 0 (stock s)); simpl; rewrite IH; reflexivity.
Qed.

Lemma filter_eligible_nil l q :
  filter_eligible_suppliers l q = [] -> Forall (fun s => stock s < q) l.
Proof.
  unfold filter_eligible_suppliers.
  induction l as [|s l IH]; [constructor|]. simpl. fold (stock s).
  destruct (Qleb q (stock s)) eqn:E; [discriminate|].
  intros H. constructor; [|apply IH, H].
  apply Qleb_gt in E. exact E.
Qed.

(** When no stock reaches the quantity, the plan starts with the first
    supplier that has stock. *)
Lemma split_loop_head l q :
  Forall (fun s => stock s < q) l ->
  head (map Supplier (split_loop l q))
  = head (map Supplier (List.filter (fun s => Qltb 0 (stock s)) l)).
Proof.
  induction 1 as [|s l Hs Hl IH]; [reflexivity|].
  cbn [split_loop List.filter]. cbv zeta. fold (stock s).
  destruct (Qleb (stock s) 0) eqn:E0.
  - apply Qleb_le in E0.
    assert (Qltb 0 (stock s) = false) as -> by (apply Qltb_ge; exact E0).
    exact IH.
  - apply Qleb_gt in E0.
    assert (Qltb 0 (stock s) = true) as -> by (apply Qltb_lt; exact E0).
    assert (Qltb 0 (Qmin (stock s) q) = true) as ->.
    { apply Qltb_lt. apply Q.min_glb_lt; [exact E0 | lra]. }
    simpl. rewrite Supplier_split. reflexivity.
Qed.

(** The recommendation, read off the suppliers of the response. *)
Lemma recommend_listed ranked q :
  recommend ranked q
  = match filter_eligible_suppliers (map Supplier ranked) q with
    | best :: _ => Some best
    | [] => head (List.filter (fun s => Qltb 0 (stock s))
                              (take 3 (map Supplier ranked)))
    end.
Proof.
  unfold recommend. rewrite filter_eligible_Supplier.
  destruct (filter_eligible_suppliers ranked q) as [|best rest] eqn:E;
    [|reflexivity].
  simpl. rewrite <- fmap_take. change (fmap Supplier) with (map Supplier).
  rewrite filter_stocked_Supplier, <- (split_loop_head _ q).
  - unfold create_split_plan. destruct ranked as [|s l]; [reflexivity|].
    destruct (split_loop (take 3 (s :: l)) q); reflexivity.
  - apply filter_eligible_nil in E.
    apply Forall_take. exact E.
Qed.

Lemma StronglySorted_Supplier l :
  StronglySorted rank_le l -> StronglySorted rank_le (map Supplier l).
Proof.
  induction 1 as [|s l Hl IH Hs]; simpl; constructor.
  - exact IH.
  - apply List.Forall_map. eapply List.Forall_impl; [|exact Hs].
    intros t. apply Supplier_rank_le.
Qed.

(** ** Search, on a miss and on a hit *)

Section SearchMore.
Variable haversine_distance : Q -> Q -> Q -> Q -> Q.
Variable _generate_key : gmap string kwarg -> string.
Variable current_dir : string.
Variable read_file : string -> file_result.
Variable settings : Settings.

Let search := search_suppliers haversine_distance _generate_key current_dir
                               read_file settings.
Let miss := search_miss haversine_distance _generate_key current_dir
                        read_file settings.
Let load := load_supplier_data (A := SupplierBundle) current_dir read_file.

(** The step of the list comprehension that adds the distance. *)
Let enrich (origin : Origin) : supplier -> M SupplierBundle supplier :=
  fun supplier =>
    lat ← getitem supplier "latitude";
    lon ← getitem supplier "longitude";
    ret (<["distance_km" :=
             haversine_distance (latitude origin) (longitude origin) lat lon]>
           supplier).

Lemma enrich_run origin s (w : world SupplierBundle) :
  enrich origin s w
  = match s !! "latitude", s !! "longitude" with
    | Some lat, Some lon =>
        (inr (<["distance_km" :=
                  haversine_distance (latitude origin) (longitude origin) lat lon]> s),
         w)
    | None, _ => (inl (KeyError "latitude"), w)
    | Some _, None => (inl (KeyError "longitude"), w)
    end.
Proof.
  unfold enrich, getitem, mbind, M_bind, bind.
  destruct (s !! "latitude"); [|reflexivity].
  destruct (s !! "longitude"); reflexivity.
Qed.

(** The comprehension changes no state; it succeeds with every supplier
    enriched, or fails on a supplier that lacks a coordinate. *)
Lemma for_each_enrich origin l (w w' : world SupplierBundle) r :
  for_each (enrich origin) l w = (r, w') ->
  w' = w /\
  match r with
  | inr es => Forall2 (enriched haversine_distance origin) l es
  | inl e =>
      exists s, s ∈ l /\
        ((s !! "latitude" = None /\ e = KeyError "latitude") \/
         (s !! "longitude" = None /\ e = KeyError "longitude"))
  end.
Proof.
  revert r w'. induction l as [|s l IH]; intros r w'.
  - simpl. intros H. injection H as <- <-. split; [reflexivity | constructor].
  - cbn [for_each]. unfold mbind, M_bind. unfold bind at 1.
    rewrite enrich_run.
    destruct (s !! "latitude") as [lat|] eqn:Hlat.
    + destruct (s !! "longitude") as [lon|] eqn:Hlon.
      * unfold bind at 1.
        destruct (for_each (enrich origin) l w) as [[e | es] w1] eqn:Hrest.
        -- intros H. injection H as <- <-.
           destruct (IH _ _ eq_refl) as [-> (s' & Hin & Hs')].
           split; [reflexivity|]. exists s'. split; [right; exact Hin | exact Hs'].
        -- unfold ret. intros H. injection H as <- <-.
           destruct (IH _ _ eq_refl) as [-> Hall].
           split; [reflexivity|]. constructor; [|exact Hall].
           exists lat, lon. auto.
      * intros H. injection H as <- <-. split; [reflexivity|].
        exists s. split; [left | right; auto].
    + intros H. injection H as <- <-. split; [reflexivity|].
      exists s. split; [left | left; auto].
Qed.

Lemma for_each_enrich_total origin l (w : world SupplierBundle) :
  Forall (fun s : supplier =>
            is_Some (s !! "latitude") /\ is_Some (s !! "longitude")) l ->
  exists es, for_each (enrich origin) l w = (inr es, w).
Proof.
  induction 1 as [|s l [[lat Hlat] [lon Hlon]] _ [es IH]].
  - exists []. reflexivity.
  - eexists. cbn [for_each]. unfold mbind, M_bind. unfold bind at 1.
    rewrite enrich_run, Hlat, Hlon. unfold bind at 1. rewrite IH. reflexivity.
Qed.

(** The entry that a miss stores for its bundle. *)
Let stored (b : SupplierBundle) (w : world SupplierBundle) : entry SupplierBundle :=
  Entry b (clock w (S (ticks w)))
        (clock w (S (S (ticks w)))
         + effective_ttl w (Some (CACHE_TTL_HOURS settings)))%Z.

(** The miss path, step by step. *)
Lemma search_miss_run request request_id (w : world SupplierBundle) :
  miss request request_id w
  = match load (material request) w with
    | (inl e, w1) => (inl e, w1)
    | (inr data, w1) =>
        match for_each (enrich (search_origin request))
                       (default [] (data !! "suppliers")) w1 with
        | (inl e, w2) => (inl e, w2)
        | (inr es, w2) =>
            let b := fresh_bundle settings request request_id es
                                  (clock w2 (ticks w2)) in
            (inr b,
             World (clock w2) (S (S (S (ticks w2))))
                   (<[_generate_key (cache_key_params request) := stored b w2]>
                      (_cache w2))
                   (_default_ttl w2) (_supplier_data_cache w2))
        end
    end.
Proof.
  unfold miss, search_miss, load. unfold mbind, M_bind. unfold bind at 1.
  destruct (load_supplier_data _ _ _ w) as [[e | data] w1]; [reflexivity|].
  unfold bind at 1. fold (enrich (search_origin request)).
  destruct (for_each _ _ w1) as [[e | es] w2]; [reflexivity|].
  unfold bind at 1. unfold utcnow at 1. cbv zeta.
  unfold bind. rewrite set_run. reflexivity.
Qed.

Let key (request : SupplierSearchRequest) : string :=
  _generate_key (cache_key_params request).

(** The world after [utcnow] has been read [n] more times and the
    response cache replaced by [c]. *)
Let later (n : nat) (c : gmap string (entry SupplierBundle))
    (w : world SupplierBundle) : world SupplierBundle :=
  World (clock w) (n + ticks w) c (_default_ttl w) (_supplier_data_cache w).

Lemma search_absent request request_id (w : world SupplierBundle) :
  _cache w !! key request = None ->
  search request request_id w
  = try_except (miss request request_id) search_handler w.
Proof.
  intros H. unfold search, search_suppliers, mbind, M_bind. unfold bind at 1.
  rewrite (get_absent _ _ _ H). reflexivity.
Qed.

Lemma search_expired request request_id (w : world SupplierBundle) e :
  _cache w !! key request = Some e ->
  (entry_expiry e < clock w (ticks w))%Z ->
  search request request_id w
  = try_except (miss request request_id) search_handler
               (later 1 (delete (key request) (_cache w)) w).
Proof.
  intros H Hlt. unfold search, search_suppliers, mbind, M_bind. unfold bind at 1.
  rewrite (get_expired _ _ _ _ H Hlt). reflexivity.
Qed.

Lemma search_fresh request request_id (w : world SupplierBundle) e :
  _cache w !! key request = Some e ->
  (clock w (ticks w) <= entry_expiry e)%Z ->
  search request request_id w
  = if USE_MOCK settings then
      let data :=
        mark_hit (entry_data e)
                 (total_seconds_int (clock w (S (S (ticks w))) - entry_cached_at e))
                 request_id in
      (inr data,
       later 3 (<[key request :=
                    Entry data (entry_cached_at e) (entry_expiry e)]> (_cache w)) w)
    else try_except (miss request request_id) search_handler
                    (later 3 (_cache w) w).
Proof.
  intros H Hle. unfold search, search_suppliers, mbind, M_bind. unfold bind at 1.
  rewrite (get_fresh _ _ _ _ H Hle). cbv beta iota.
  destruct (USE_MOCK settings); [|reflexivity].
  unfold bind, read_cache, write_cache, ret, later. simpl.
  f_equal. f_equal.
  apply map_eq. intros k. destruct (decide (key request = k)) as [<- | Hne].
  - rewrite lookup_alter_eq, lookup_insert_eq. fold (key request). rewrite H.
    reflexivity.
  - rewrite lookup_alter_ne, lookup_insert_ne by exact Hne. reflexivity.
Qed.

(** What the miss path does from a world [w]: the catalogue is loaded,
    every supplier gets its distance, and the bundle is stored; or one
    of the two steps fails and the response cache stays as it was. *)
Lemma miss_outcome request request_id (w w1 : world SupplierBundle) r :
  try_except (miss request request_id) search_handler w = (r, w1) ->
  clock w1 = clock w /\ _default_ttl w1 = _default_ttl w /\
  _supplier_data_cache w1
  = _supplier_data_cache (load (material request) w).2 /\
  match r with
  | inr b =>
      exists data es,
        _supplier_data_cache w1 !! lower (material request) = Some data /\
        Forall2 (enriched haversine_distance (search_origin request))
                (default [] (data !! "suppliers")) es /\
        b = fresh_bundle settings request request_id es (clock w (ticks w)) /\
        _cache w1 = <[key request := stored b w]> (_cache w) /\
        ticks w1 = (3 + ticks w)%nat
  | inl e =>
      _cache w1 = _cache w /\ ticks w1 = ticks w /\
      ((MATERIAL_FILE_MAP !! lower (material request) = None /\
        e = HTTPException 400 ("Unknown material_id: " ++ material request)) \/
       (exists filename,
           MATERIAL_FILE_MAP !! lower (material request) = Some filename /\
           ((read_file (current_dir ++ "/data/" ++ filename) = NoSuchFile /\
             e = HTTPException 404 ("Supplier data file not found: "
                                    ++ current_dir ++ "/data/" ++ filename)) \/
            (exists err,
                read_file (current_dir ++ "/data/" ++ filename) = InvalidJSON err /\
                e = HTTPException 400
                      ("Invalid JSON in supplier data file: " ++ err)))) \/
       (exists data s coordinate,
           _supplier_data_cache w1 !! lower (material request) = Some data /\
           s ∈ default [] (data !! "suppliers") /\
           coordinate ∈ ["latitude"; "longitude"] /\
           s !! coordinate = None /\
           e = HTTPException 500 ("Internal error: '" ++ coordinate ++ "'")))
  end.
Proof.
  unfold try_except. rewrite search_miss_run. unfold load.
  pose proof (load_supplier_data_frame current_dir read_file
                (material request) w) as Hframe. cbv zeta in Hframe.
  destruct (load_supplier_data current_dir read_file (material request) w)
    as [[e | data] w0] eqn:Hload.
  - intros H. injection H as <- <-.
    rewrite load_supplier_data_cases in Hload.
    destruct (_supplier_data_cache w !! lower (material request));
      [discriminate|].
    destruct (MATERIAL_FILE_MAP !! lower (material request)) as [filename|]
      eqn:Hmap.
    + destruct (read_file (current_dir ++ "/data/" ++ filename))
        as [|err|data] eqn:Hfile;
        try discriminate; injection Hload as <- <-;
        (split_and!; try reflexivity); right; left;
        exists filename; (split; [reflexivity|]).
      * left. auto.
      * right. exists err. auto.
    + injection Hload as <- <-. split_and!; try reflexivity. left. auto.
  - simpl in Hframe. destruct Hframe as (Hclock & Hticks & Hcache & Httl).
    assert (Hdata : _supplier_data_cache w0 !! lower (material request) = Some data).
    { rewrite load_supplier_data_cases in Hload.
      destruct (_supplier_data_cache w !! lower (material request)) as [d|] eqn:Hd.
      - injection Hload as <- <-. exact Hd.
      - destruct (MATERIAL_FILE_MAP !! lower (material request));
          [|discriminate].
        destruct (read_file _); try discriminate.
        injection Hload as <- <-. simpl. apply lookup_insert_eq. }
    destruct (for_each _ _ w0) as [[e | es] w2] eqn:Heach;
      apply for_each_enrich in Heach as [-> Heach];
      intros H; injection H as <- <-.
    + split_and!; try assumption; try reflexivity.
      right. right. destruct Heach as (s & Hin & Hs).
      destruct Hs as [[Hs ->] | [Hs ->]].
      * exists data, s, "latitude". split_and!; auto. left.
      * exists data, s, "longitude". split_and!; auto. right. left.
    + simpl. split_and!; try assumption; try reflexivity.
      exists data, es.
      split; [exact Hdata|]. split; [exact Heach|].
      split; [rewrite Hclock, Hticks; reflexivity|].
      split; [|rewrite Hticks; reflexivity].
      rewrite Hcache. f_equal. unfold stored, effective_ttl.
      rewrite Hclock, Hticks, Httl. reflexivity.
Qed.

Lemma miss_from_files request request_id (w : world SupplierBundle) :
  loaded_from_files current_dir read_file w ->
  loaded_from_files current_dir read_file
    (try_except (miss request request_id) search_handler w).2.
Proof.
  intros H.
  destruct (try_except (miss request request_id) search_handler w)
    as [r w1] eqn:Hrun.
  apply miss_outcome in Hrun as (_ & _ & Hdata & _).
  pose proof (load_supplier_data_from_files current_dir read_file
                (material request) w H) as Hload.
  intros k d. simpl. rewrite Hdata. apply Hload.
Qed.

(** X10.  Whatever a search returns, the catalogues held in memory stay
    what their data files parsed to: a search loads a catalogue from the
    file that the map names for its material and changes no catalogue
    that is loaded. *)
Theorem search_suppliers_catalogue_from_files request request_id
    (w : world SupplierBundle) :
  loaded_from_files current_dir read_file w ->
  loaded_from_files current_dir read_file (search request request_id w).2.
Proof.
  intros H.
  destruct (_cache w !! key request) as [e|] eqn:He.
  - destruct (Z_lt_le_dec (entry_expiry e) (clock w (ticks w))) as [Hlt | Hle].
    + rewrite (search_expired _ _ _ _ He Hlt). apply miss_from_files. exact H.
    + rewrite (search_fresh _ _ _ _ He Hle).
      destruct (USE_MOCK settings); [exact H|].
      apply miss_from_files. exact H.
  - rewrite (search_absent _ _ _ He). apply miss_from_files. exact H.
Qed.

(** A search that returns a bundle leaves it in the response cache
    under the key of the request. *)
Lemma search_stores_bundle request request_id (w w1 : world SupplierBundle) b :
  search request request_id w = (inr b, w1) ->
  exists e, _cache w1 !! key request = Some e /\ entry_data e = b.
Proof.
  assert (Hmiss : forall w0,
             try_except (miss request request_id) search_handler w0 = (inr b, w1) ->
             exists e, _cache w1 !! key request = Some e /\ entry_data e = b).
  { intros w0 Hrun.
    apply miss_outcome in Hrun as (_ & _ & _ & data & es & _ & _ & _ & Hc & _).
    exists (stored b w0). rewrite Hc, lookup_insert_eq. auto. }
  destruct (_cache w !! key request) as [e|] eqn:He.
  - destruct (Z_lt_le_dec (entry_expiry e) (clock w (ticks w))) as [Hlt | Hle].
    + rewrite (search_expired _ _ _ _ He Hlt). apply Hmiss.
    + rewrite (search_fresh _ _ _ _ He Hle).
      destruct (USE_MOCK settings); [|apply Hmiss].
      cbv zeta. intros Hrun. injection Hrun as <- <-.
      eexists. simpl. rewrite lookup_insert_eq. split; reflexivity.
  - rewrite (search_absent _ _ _ He). apply Hmiss.
Qed.

(** A search touches the response cache under the key of its request
    only. *)
Lemma search_other_keys request request_id (w : world SupplierBundle) k :
  k <> key request ->
  _cache (search request request_id w).2 !! k = _cache w !! k.
Proof.
  intros Hk.
  assert (Hmiss : forall w0,
             _cache (try_except (miss request request_id) search_handler w0).2 !! k
             = _cache w0 !! k).
  { intros w0.
    destruct (try_except (miss request request_id) search_handler w0)
      as [[e | b] w1] eqn:Hrun;
      apply miss_outcome in Hrun as (_ & _ & _ & Hrun); simpl.
    - destruct Hrun as (-> & _). reflexivity.
    - destruct Hrun as (data & es & _ & _ & _ & -> & _).
      apply lookup_insert_ne. congruence. }
  destruct (_cache w !! key request) as [e|] eqn:He.
  - destruct (Z_lt_le_dec (entry_expiry e) (clock w (ticks w))) as [Hlt | Hle].
    + rewrite (search_expired _ _ _ _ He Hlt), Hmiss. simpl.
      apply lookup_delete_ne. congruence.
    + rewrite (search_fresh _ _ _ _ He Hle).
      destruct (USE_MOCK settings); [|rewrite Hmiss; reflexivity].
      simpl. apply lookup_insert_ne. congruence.
  - rewrite (search_absent _ _ _ He). apply Hmiss.
Qed.

(** X11.  A search that returns a bundle has it stored: afterwards the
    response cache holds, under the key of the request, an entry whose
    data is the bundle returned (provenance included), and the entries
    under the other keys are as before. *)
Theorem search_suppliers_success_stored request request_id
    (w w1 : world SupplierBundle) b :
  search request request_id w = (inr b, w1) ->
  (exists e, _cache w1 !! key request = Some e /\ entry_data e = b) /\
  (forall k, k <> key request -> _cache w1 !! k = _cache w !! k).
Proof.
  intros Hrun. split.
  - eapply search_stores_bundle, Hrun.
  - intros k Hk. rewrite <- (search_other_keys request request_id w k Hk), Hrun.
    reflexivity.
Qed.

(** A failure of the comprehension is the [KeyError] of a missing
    coordinate, and the first supplier is tried first. *)
Lemma enrich_failure origin l (w w' : world SupplierBundle) e :
  for_each (enrich origin) l w = (inl e, w') ->
  (e = KeyError "latitude" \/ e = KeyError "longitude") /\
  (forall s rest,
      l = s :: rest ->
      (s !! "latitude" = None -> e = KeyError "latitude") /\
      (is_Some (s !! "latitude") -> s !! "longitude" = None ->
       e = KeyError "longitude")).
Proof.
  intros Hrun. split.
  - apply for_each_enrich in Hrun as [_ (s & _ & [[_ ->] | [_ ->]])]; auto.
  - intros s rest ->. cbn [for_each] in Hrun.
    unfold mbind, M_bind in Hrun. unfold bind at 1 in Hrun.
    rewrite enrich_run in Hrun. split.
    + intros Hlat. rewrite Hlat in Hrun. injection Hrun as <- _. reflexivity.
    + intros [lat Hlat] Hlon. rewrite Hlat, Hlon in Hrun.
      injection Hrun as <- _. reflexivity.
Qed.

(** The HTTP error of a failed comprehension over a loaded catalogue. *)
Lemma enrich_failure_http request data (w w' : world SupplierBundle) e :
  _supplier_data_cache w !! lower (material request) = Some data ->
  for_each (enrich (search_origin request))
           (default [] (data !! "suppliers")) w = (inl e, w') ->
  (exists status detail,
      search_handler e = HTTPException status detail /\
      (status = 400 \/ status = 404 \/ status = 500)%Z) /\
  (forall data' s rest,
      _supplier_data_cache w' !! lower (material request) = Some data' ->
      default [] (data' !! "suppliers") = s :: rest ->
      (s !! "latitude" = None ->
       search_handler e = HTTPException 500 "Internal error: 'latitude'") /\
      (is_Some (s !! "latitude") -> s !! "longitude" = None ->
       search_handler e = HTTPException 500 "Internal error: 'longitude'")).
Proof.
  intros Hdata Heach.
  pose proof (for_each_enrich _ _ _ _ _ Heach) as [-> _].
  destruct (enrich_failure _ _ _ _ _ Heach) as [Hkind Hfirst].
  split.
  - destruct Hkind as [-> | ->]; do 2 eexists; (split; [reflexivity|]); auto.
  - intros data' s rest Hdata' Hlist.
    rewrite Hdata in Hdata'. injection Hdata' as <-.
    destruct (Hfirst s rest Hlist) as [Hlat Hlon]. split.
    + intros H. rewrite (Hlat H). reflexivity.
    + intros H1 H2. rewrite (Hlon H1 H2). reflexivity.
Qed.

(** How the miss path fails, cause by cause. *)
Lemma miss_failure request request_id (w w1 : world SupplierBundle) e :
  try_except (miss request request_id) search_handler w = (inl e, w1) ->
  (exists status detail,
      e = HTTPException status detail /\
      (status = 400 \/ status = 404 \/ status = 500)%Z) /\
  (_supplier_data_cache w !! lower (material request) = None ->
   (MATERIAL_FILE_MAP !! lower (material request) = None ->
    e = HTTPException 400 ("Unknown material_id: " ++ material request)) /\
   (forall filename,
       MATERIAL_FILE_MAP !! lower (material request) = Some filename ->
       (read_file (current_dir ++ "/data/" ++ filename) = NoSuchFile ->
        e = HTTPException 404 ("Supplier data file not found: "
                               ++ current_dir ++ "/data/" ++ filename)) /\
       (forall err,
           read_file (current_dir ++ "/data/" ++ filename) = InvalidJSON err ->
           e = HTTPException 400
                 ("Invalid JSON in supplier data file: " ++ err)))) /\
  (forall data s rest,
      _supplier_data_cache w1 !! lower (material request) = Some data ->
      default [] (data !! "suppliers") = s :: rest ->
      (s !! "latitude" = None ->
       e = HTTPException 500 "Internal error: 'latitude'") /\
      (is_Some (s !! "latitude") -> s !! "longitude" = None ->
       e = HTTPException 500 "Internal error: 'longitude'")).
Proof.
  unfold try_except. rewrite search_miss_run. unfold load.
  rewrite load_supplier_data_cases.
  destruct (_supplier_data_cache w !! lower (material request)) as [d|] eqn:Hd.
  - destruct (for_each _ _ w) as [[e0 | es] w2] eqn:Heach; [|discriminate].
    intros H. injection H as <- <-.
    destruct (enrich_failure_http _ _ _ _ _ Hd Heach) as [Hstatus Hfirst].
    split; [exact Hstatus|]. split; [discriminate | exact Hfirst].
  - destruct (MATERIAL_FILE_MAP !! lower (material request)) as [filename|]
      eqn:Hmap.
    + destruct (read_file (current_dir ++ "/data/" ++ filename))
        as [|err|data] eqn:Hfile.
      * intros H. injection H as <- <-.
        split; [do 2 eexists; split; [reflexivity | auto]|].
        split.
        -- intros _. split; [discriminate|].
           intros f Hf. injection Hf as <-. rewrite Hfile.
           split; [reflexivity | discriminate].
        -- intros data' s rest Hdata'. rewrite Hd in Hdata'. discriminate.
      * intros H. injection H as <- <-.
        split; [do 2 eexists; split; [reflexivity | auto]|].
        split.
        -- intros _. split; [discriminate|].
           intros f Hf. injection Hf as <-. rewrite Hfile.
           split; [discriminate|]. intros err' Herr. injection Herr as <-.
           reflexivity.
        -- intros data' s rest Hdata'. rewrite Hd in Hdata'. discriminate.
      * match goal with
        | |- context [for_each ?f ?l ?w0] =>
            destruct (for_each f l w0) as [[e0 | es] w2] eqn:Heach
        end; [|discriminate].
        intros H. injection H as <- <-.
        match type of Heach with
        | for_each _ _ ?w0 = _ =>
            assert (Hins : _supplier_data_cache w0
                             !! lower (material request) = Some data)
              by apply lookup_insert_eq
        end.
        destruct (enrich_failure_http _ _ _ _ _ Hins Heach) as [Hstatus Hfirst].
        split; [exact Hstatus|]. split; [|exact Hfirst].
        intros _. split; [discriminate|].
        intros f Hf. injection Hf as <-. rewrite Hfile.
        split; [discriminate|]. intros err' Herr. discriminate.
    + intros H. injection H as <- <-.
      split; [do 2 eexists; split; [reflexivity | auto]|].
      split.
      * intros _. split; [reflexivity|]. intros f Hf. discriminate.
      * intros data' s rest Hdata'. rewrite Hd in Hdata'. discriminate.
Qed.

(** X12.  How a search fails.  Every failure is an HTTP error with the
    status 400, 404 or 500.  When the catalogue of the material is not
    loaded yet, an identifier (of ASCII characters) that the file map
    does not know gives 400 "Unknown material_id", a mapped data file
    that is missing 404, and one that is not valid JSON 400; when the
    catalogue is loaded and its first supplier lacks a coordinate, the
    failure is 500 with the name of the missing key.  A failed search
    adds nothing to the response cache and changes none of its entries;
    at most the expired entry of the request is gone. *)
Theorem search_suppliers_failure request request_id
    (w w1 : world SupplierBundle) e :
  search request request_id w = (inl e, w1) ->
  _cache w1 ⊆ _cache w /\
  (forall k, k <> key request -> _cache w1 !! k = _cache w !! k) /\
  (exists status detail,
      e = HTTPException status detail /\
      (status = 400 \/ status = 404 \/ status = 500)%Z) /\
  (_supplier_data_cache w !! lower (material request) = None ->
   (isascii (material request) = true ->
    MATERIAL_FILE_MAP !! lower (material request) = None ->
    e = HTTPException 400 ("Unknown material_id: " ++ material request)) /\
   (forall filename,
       MATERIAL_FILE_MAP !! lower (material request) = Some filename ->
       (read_file (current_dir ++ "/data/" ++ filename) = NoSuchFile ->
        e = HTTPException 404 ("Supplier data file not found: "
                               ++ current_dir ++ "/data/" ++ filename)) /\
       (forall err,
           read_file (current_dir ++ "/data/" ++ filename) = InvalidJSON err ->
           e = HTTPException 400
                 ("Invalid JSON in supplier data file: " ++ err)))) /\
  (forall data s rest,
      _supplier_data_cache w1 !! lower (material request) = Some data ->
      default [] (data !! "suppliers") = s :: rest ->
      (s !! "latitude" = None ->
       e = HTTPException 500 "Internal error: 'latitude'") /\
      (is_Some (s !! "latitude") -> s !! "longitude" = None ->
       e = HTTPException 500 "Internal error: 'longitude'")).
Proof.
  intros Hrun.
  assert (Hmiss :
            exists w0,
              _supplier_data_cache w0 = _supplier_data_cache w /\
              _cache w0 ⊆ _cache w /\
              try_except (miss request request_id) search_handler w0
              = (inl e, w1)).
  { destruct (_cache w !! key request) as [e0|] eqn:He.
    - destruct (Z_lt_le_dec (entry_expiry e0) (clock w (ticks w))) as [Hlt | Hle].
      + rewrite (search_expired _ _ _ _ He Hlt) in Hrun.
        eexists. split; [|split; [|exact Hrun]]; [reflexivity|].
        apply delete_subseteq.
      + rewrite (search_fresh _ _ _ _ He Hle) in Hrun.
        destruct (USE_MOCK settings); [discriminate|].
        eexists. split; [|split; [|exact Hrun]]; reflexivity.
    - rewrite (search_absent _ _ _ He) in Hrun.
      exists w. split; [|split; [|exact Hrun]]; reflexivity. }
  destruct Hmiss as (w0 & Hdata0 & Hsub & Hmiss).
  split; [|split].
  - pose proof (miss_outcome _ _ _ _ _ Hmiss) as (_ & _ & _ & Hc & _).
    rewrite Hc. exact Hsub.
  - intros k Hk.
    rewrite <- (search_other_keys request request_id w k Hk), Hrun.
    reflexivity.
  - destruct (miss_failure _ _ _ _ _ Hmiss) as (Hstatus & Hload & Hfirst).
    rewrite Hdata0 in Hload.
    split; [exact Hstatus|]. split; [|exact Hfirst].
    intros Hnew. destruct (Hload Hnew) as [Hunknown Hfile].
    split; [intros _; exact Hunknown | exact Hfile].
Qed.

(** X13.  With [USE_MOCK] set, a request whose entry has not expired is
    answered from the response cache: the bundle stored, with the
    provenance marked as a hit, its age in whole seconds and the
    identifier of this request.  Neither the data files nor the
    distance function are consulted, the catalogues are untouched, and
    the entry keeps its creation and expiry times, so that a hit does
    not prolong its life. *)
Theorem search_suppliers_hit request request_id (w : world SupplierBundle) e :
  USE_MOCK settings = true ->
  _cache w !! key request = Some e ->
  (clock w (ticks w) <= entry_expiry e)%Z ->
  let age := total_seconds_int (clock w (S (S (ticks w))) - entry_cached_at e) in
  let result := search request request_id w in
  result.1 = inr (mark_hit (entry_data e) age request_id) /\
  _cache result.2 !! key request
  = Some (Entry (mark_hit (entry_data e) age request_id)
                (entry_cached_at e) (entry_expiry e)) /\
  _supplier_data_cache result.2 = _supplier_data_cache w /\
  ticks result.2 = (3 + ticks w)%nat.
Proof.
  intros Hmock He Hle. cbv zeta.
  rewrite (search_fresh _ _ _ _ He Hle), Hmock. simpl.
  split_and!; try reflexivity. apply lookup_insert_eq.
Qed.

(** Only the miss path returns a bundle whose provenance says
    [cache = false]. *)
Lemma search_fresh_bundle request request_id (w w1 : world SupplierBundle) b :
  search request request_id w = (inr b, w1) ->
  cache (provenance b) = false ->
  exists data es now,
    _supplier_data_cache w1 !! lower (material request) = Some data /\
    Forall2 (enriched haversine_distance (search_origin request))
            (default [] (data !! "suppliers")) es /\
    b = fresh_bundle settings request request_id es now.
Proof.
  intros Hrun Hfresh.
  assert (Hmiss : forall w0,
             try_except (miss request request_id) search_handler w0 = (inr b, w1) ->
             exists data es now,
               _supplier_data_cache w1 !! lower (material request) = Some data /\
               Forall2 (enriched haversine_distance (search_origin request))
                       (default [] (data !! "suppliers")) es /\
               b = fresh_bundle settings request request_id es now).
  { intros w0 H0.
    apply miss_outcome in H0 as (_ & _ & _ & data & es & Hd & Hes & Hb & _).
    exists data, es, (clock w0 (ticks w0)). auto. }
  destruct (_cache w !! key request) as [e|] eqn:He.
  - destruct (Z_lt_le_dec (entry_expiry e) (clock w (ticks w))) as [Hlt | Hle].
    + rewrite (search_expired _ _ _ _ He Hlt) in Hrun. eapply Hmiss, Hrun.
    + rewrite (search_fresh _ _ _ _ He Hle) in Hrun.
      destruct (USE_MOCK settings); [|eapply Hmiss, Hrun].
      cbv zeta in Hrun. injection Hrun as <- _. discriminate.
  - rewrite (search_absent _ _ _ He) in Hrun. eapply Hmiss, Hrun.
Qed.

Lemma enriched_distance origin s e :
  enriched haversine_distance origin s e ->
  exists lat lon,
    e !! "latitude" = Some lat /\ e !! "longitude" = Some lon /\
    e !! "distance_km"
    = Some (haversine_distance (latitude origin) (longitude origin) lat lon).
Proof.
  intros (lat & lon & Hlat & Hlon & ->). exists lat, lon.
  rewrite !lookup_insert_ne by discriminate.
  rewrite lookup_insert_eq. auto.
Qed.

(** X14.  The suppliers of a freshly built bundle are the suppliers of
    the catalogue of the material, each cut down to the fields of the
    model and carrying the distance from the origin of the request to
    its own coordinates; none is dropped or added, and they are listed
    in ranking order. *)
Theorem search_suppliers_fresh_listing request request_id
    (w w1 : world SupplierBundle) b :
  search request request_id w = (inr b, w1) ->
  cache (provenance b) = false ->
  exists data es,
    _supplier_data_cache w1 !! lower (material request) = Some data /\
    Forall2 (enriched haversine_distance (search_origin request))
            (default [] (data !! "suppliers")) es /\
    Permutation (suppliers b) (map Supplier es) /\
    StronglySorted rank_le (suppliers b) /\
    Forall (fun s : supplier =>
              exists lat lon,
                s !! "latitude" = Some lat /\ s !! "longitude" = Some lon /\
                s !! "distance_km"
                = Some (haversine_distance (latitude (search_origin request))
                                           (longitude (search_origin request))
                                           lat lon))
           (suppliers b).
Proof.
  intros Hrun Hfresh.
  destruct (search_fresh_bundle _ _ _ _ _ Hrun Hfresh)
    as (data & es & now & Hdata & Hes & ->).
  exists data, es. simpl. split_and!; try assumption.
  - apply Permutation_map. rewrite rank_suppliers_sorted. apply sorted_perm.
  - apply StronglySorted_Supplier, rank_suppliers_is_sorted.
  - apply List.Forall_map.
    assert (Hall : List.Forall
                     (fun e => exists s,
                          enriched haversine_distance (search_origin request) s e)
                     es).
    { clear -Hes. induction Hes; constructor; eauto. }
    eapply Permutation_Forall;
      [symmetry; rewrite rank_suppliers_sorted; apply sorted_perm|].
    eapply List.Forall_impl; [|exact Hall].
    intros e [s He]. apply enriched_distance in He as (lat & lon & H1 & H2 & H3).
    exists lat, lon.
    rewrite !Supplier_lookup by (unfold supplier_fields; repeat constructor).
    auto.
Qed.

(** X15.  The recommendation of a freshly built bundle, read off its
    list of suppliers: the first listed supplier whose stock covers the
    quantity asked for; when there is none, the first of the three
    best-ranked suppliers that has any stock; and none when these three
    have no stock either.  A recommendation is always one of the listed
    suppliers, as listed: the allocation of the split plan is not part
    of it. *)
Theorem search_suppliers_recommendation request request_id
    (w w1 : world SupplierBundle) b :
  search request request_id w = (inr b, w1) ->
  cache (provenance b) = false ->
  recommended b
  = match filter_eligible_suppliers (suppliers b) (quantity_tons request) with
    | best :: _ => Some best
    | [] => head (List.filter (fun s => Qltb 0 (stock s)) (take 3 (suppliers b)))
    end /\
  (forall best, recommended b = Some best -> In best (suppliers b)).
Proof.
  intros Hrun Hfresh.
  destruct (search_fresh_bundle _ _ _ _ _ Hrun Hfresh)
    as (data & es & now & _ & _ & ->).
  simpl. rewrite recommend_listed.
  split; [reflexivity|].
  set (listed := map Supplier (rank_suppliers es None)).
  intros best.
  destruct (filter_eligible_suppliers listed (quantity_tons request))
    as [|s rest] eqn:E.
  - intros Hhead. apply head_Some_elem_of in Hhead.
    apply list_elem_of_In in Hhead. apply filter_In in Hhead as [Hin _].
    apply list_elem_of_In in Hin. apply list_elem_of_In.
    exact (subseteq_take 3 listed best Hin).
  - intros H. injection H as <-.
    apply (filter_eligible_In (quantity_tons request) s listed).
    rewrite E. left. reflexivity.
Qed.

End SearchMore.

(** X16.  Asking again: with [USE_MOCK] set, a search that returned a
    bundle, followed by a search for the same request before the entry
    expires, returns the same bundle marked as a cache hit, whatever
    the data files and the distance function have become in between. *)
Theorem search_suppliers_repeat
    haversine_distance _generate_key current_dir read_file settings
    haversine_distance' current_dir' read_file'
    request request_id request_id' (w w1 : world SupplierBundle) b :
  USE_MOCK settings = true ->
  search_suppliers haversine_distance _generate_key current_dir read_file
                   settings request request_id w = (inr b, w1) ->
  (forall e, _cache w1 !! _generate_key (cache_key_params request) = Some e ->
             (clock w1 (ticks w1) <= entry_expiry e)%Z) ->
  exists e,
    _cache w1 !! _generate_key (cache_key_params request) = Some e /\
    (search_suppliers haversine_distance' _generate_key current_dir' read_file'
                      settings request request_id' w1).1
    = inr (mark_hit b
             (total_seconds_int (clock w1 (S (S (ticks w1))) - entry_cached_at e))
             request_id').
Proof.
  intros Hmock Hrun Hlive.
  destruct (search_stores_bundle _ _ _ _ _ _ _ _ _ _ Hrun) as (e & He & <-).
  exists e. split; [exact He|].
  rewrite (search_fresh haversine_distance' _generate_key current_dir' read_file'
             settings request request_id' w1 e He (Hlive e He)), Hmock.
  reflexivity.
Qed.

Lemma search_suppliers_catalogue_from_files_witness :
  loaded_from_files "/srv" (fun _ => Parsed example_catalogue) example_search.2.
Proof.
  apply (search_suppliers_catalogue_from_files
           example_distance (fun _ => "key") "/srv"
           (fun _ => Parsed example_catalogue) default_settings
           sample_request "req-000000000000" (new_world (fun _ => 0%Z) 24)).
  intros k d H. simpl in H. rewrite lookup_empty in H. discriminate.
Defined.

Lemma search_suppliers_success_stored_witness :
  exists b,
    example_search.1 = inr b /\
    exists e, _cache example_search.2 !! "key" = Some e /\ entry_data e = b.
Proof.
  destruct example_search as [[e | b] w1] eqn:Hrun.
  - vm_compute in Hrun. discriminate.
  - exists b. split; [reflexivity|].
    apply (search_suppliers_success_stored
             example_distance (fun _ => "key") "/srv"
             (fun _ => Parsed example_catalogue) default_settings
             sample_request "req-000000000000" (new_world (fun _ => 0%Z) 24)
             w1 b Hrun).
Defined.

Lemma search_suppliers_failure_witness :
  exists w1,
    search_suppliers example_distance (fun _ => "key") "/srv"
      (fun _ => Parsed sample_bad_catalogue) default_settings
      sample_request "req-000000000000" (new_world (fun _ => 0%Z) 24)
    = (inl (HTTPException 500 "Internal error: 'latitude'"), w1) /\
    _cache w1 ⊆ ∅.
Proof.
  eexists. split; [reflexivity|].
  apply (search_suppliers_failure
           example_distance (fun _ => "key") "/srv"
           (fun _ => Parsed sample_bad_catalogue) default_settings
           sample_request "req-000000000000" (new_world (fun _ => 0%Z) 24)
           _ (HTTPException 500 "Internal error: 'latitude'") eq_refl).
Defined.

Lemma search_suppliers_hit_witness :
  (search_suppliers example_distance (fun _ => "key") "/srv"
     (fun _ => NoSuchFile) default_settings
     sample_request "req-000000000001" sample_live_world).1
  = inr (mark_hit (fresh_bundle default_settings sample_request
                                "req-000000000000" [] 0)
                  0 "req-000000000001").
Proof.
  apply (search_suppliers_hit
           example_distance (fun _ => "key") "/srv" (fun _ => NoSuchFile)
           default_settings sample_request "req-000000000001" sample_live_world
           (Entry (fresh_bundle default_settings sample_request
                                "req-000000000000" [] 0)
                  0 (timedelta_hours 24))).
  - reflexivity.
  - reflexivity.
  - simpl. unfold timedelta_hours. lia.
Defined.

Lemma search_suppliers_fresh_listing_witness :
  exists b,
    example_search.1 = inr b /\
    StronglySorted rank_le (suppliers b).
Proof.
  destruct example_search as [[e | b] w1] eqn:Hrun.
  - vm_compute in Hrun. discriminate.
  - exists b. split; [reflexivity|].
    assert (Hfresh : cache (provenance b) = false).
    { pose proof Hrun as H. vm_compute in H. injection H as <- _. reflexivity. }
    destruct (search_suppliers_fresh_listing
                example_distance (fun _ => "key") "/srv"
                (fun _ => Parsed example_catalogue) default_settings
                sample_request "req-000000000000" (new_world (fun _ => 0%Z) 24)
                w1 b Hrun Hfresh) as (_ & _ & _ & _ & _ & Hsorted & _).
    exact Hsorted.
Defined.

Lemma search_suppliers_recommendation_witness :
  exists b,
    example_search.1 = inr b /\
    forall best, recommended b = Some best -> In best (suppliers b).
Proof.
  destruct example_search as [[e | b] w1] eqn:Hrun.
  - vm_compute in Hrun. discriminate.
  - exists b. split; [reflexivity|].
    assert (Hfresh : cache (provenance b) = false).
    { pose proof Hrun as H. vm_compute in H. injection H as <- _. reflexivity. }
    apply (search_suppliers_recommendation
             example_distance (fun _ => "key") "/srv"
             (fun _ => Parsed example_catalogue) default_settings
             sample_request "req-000000000000" (new_world (fun _ => 0%Z) 24)
             w1 b Hrun Hfresh).
Defined.

Lemma search_suppliers_repeat_witness :
  exists b e,
    example_search.1 = inr b /\
    _cache example_search.2 !! "key" = Some e /\
    (search_suppliers (fun _ _ _ _ => 0) (fun _ => "key") "/tmp"
       (fun _ => NoSuchFile) default_settings sample_request
       "req-000000000001" example_search.2).1
    = inr (mark_hit b
             (total_seconds_int
                (clock example_search.2 (S (S (ticks example_search.2)))
                 - entry_cached_at e))
             "req-000000000001").
Proof.
  destruct example_search as [[e | b] w1] eqn:Hrun.
  - vm_compute in Hrun. discriminate.
  - exists b.
    assert (Hlive : forall e, _cache w1 !! "key" = Some e ->
                              (clock w1 (ticks w1) <= entry_expiry e)%Z).
    { pose proof Hrun as H. vm_compute in H. injection H as _ <-.
      intros e He. vm_compute in He. injection He as <-.
      vm_compute. discriminate. }
    destruct (search_suppliers_repeat
                example_distance (fun _ => "key") "/srv"
                (fun _ => Parsed example_catalogue) default_settings
                (fun _ _ _ _ => 0) "/tmp" (fun _ => NoSuchFile)
                sample_request "req-000000000000" "req-000000000001"
                (new_world (fun _ => 0%Z) 24) w1 b eq_refl Hrun Hlive)
      as (e & He & Hhit).
    exists e. split; [reflexivity|]. split; [exact He | exact Hhit].
Defined.

(** ** Ranking, filter and split plan, once more *)

Section SortedMore.
Context {A K : Type} (key : A -> K) (ltb : K -> K -> bool).

Let le (a b : A) : Prop := ltb (key b) (key a) = false.

Hypothesis ltb_asym : forall a b, ltb a b = true -> ltb b a = false.
Hypothesis le_trans :
  forall a b c, ltb b a = false -> ltb c b = false -> ltb c a = false.

Lemma insort_front x l :
  Forall (le x) l -> insort key ltb x l = x :: l.
Proof.
  intros H. destruct l as [|y l]; [reflexivity|]. simpl.
  inversion H as [|? ? Hy _]; subst. unfold le in Hy. rewrite Hy. reflexivity.
Qed.

(** Inserting into a sorted list and selecting commute. *)
Lemma insort_select (p : A -> bool) x l :
  StronglySorted le l ->
  List.filter p (insort key ltb x l)
  = if p x then insort key ltb x (List.filter p l) else List.filter p l.
Proof.
  induction 1 as [|y l Hl IH Hy]; simpl.
  - destruct (p x); reflexivity.
  - destruct (ltb (key y) (key x)) eqn:E; simpl.
    + rewrite IH. destruct (p y), (p x); simpl; try rewrite E; reflexivity.
    + destruct (p x); [|reflexivity].
      symmetry. apply insort_front.
      assert (Hall : List.Forall (le x) (y :: l)).
      { constructor; [exact E|].
        eapply List.Forall_impl; [|exact Hy].
        intros z Hz. unfold le in *. eapply le_trans; eassumption. }
      change (List.Forall (le x) (List.filter p (y :: l))).
      rewrite List.Forall_forall in *.
      intros z Hz. apply filter_In in Hz as [Hz _]. apply Hall, Hz.
Qed.

Lemma sorted_select (p : A -> bool) l :
  List.filter p (sorted key ltb l) = sorted key ltb (List.filter p l).
Proof.
  induction l as [|x l IH]; simpl; [reflexivity|].
  rewrite insort_select by (apply sorted_sorted; assumption).
  rewrite IH. destruct (p x); reflexivity.
Qed.

End SortedMore.

Lemma rank_suppliers_as_sorted suppliers criteria :
  rank_suppliers suppliers criteria
  = sorted (sort_key (default default_criteria criteria)) tuple_ltb suppliers.
Proof. destruct suppliers, criteria; reflexivity. Qed.

Lemma tied_excludes_smaller criteria z x y :
  tied criteria z x = true ->
  tuple_ltb (sort_key criteria y) (sort_key criteria x) = true ->
  tied criteria z y = false.
Proof.
  unfold tied. rewrite andb_true_iff, !negb_true_iff. intros [Hxz _] Hyx.
  destruct (tuple_ltb (sort_key criteria y) (sort_key criteria z)) eqn:E.
  - rewrite andb_false_r. reflexivity.
  - exfalso. pose proof (tuple_ltb_le_trans _ _ _ Hxz E). congruence.
Qed.

(** X17.  [rank_suppliers] with criteria of the caller's choice is a
    stable sort by the tuple of these criteria, a missing value counting
    as [+infinity]: the result rearranges the input, is in ascending
    lexicographic order of the keys, keeps suppliers that tie in the
    order of the input, and is left as it is by a second ranking.  With
    an empty list of criteria all suppliers tie and the input comes back
    unchanged (the default criteria stand in for [None] only). *)
Theorem rank_suppliers_criteria suppliers criteria :
  let ranked := rank_suppliers suppliers (Some criteria) in
  Permutation ranked suppliers /\
  StronglySorted
    (fun s t => tuple_le (sort_key criteria s) (sort_key criteria t)) ranked /\
  (forall s, List.filter (tied criteria s) ranked
             = List.filter (tied criteria s) suppliers) /\
  rank_suppliers ranked (Some criteria) = ranked /\
  rank_suppliers suppliers (Some []) = suppliers.
Proof.
  cbv zeta. rewrite !rank_suppliers_as_sorted. simpl.
  assert (Hsorted : forall c l,
             StronglySorted
               (fun s t => tuple_ltb (sort_key c t) (sort_key c s) = false)
               (sorted (sort_key c) tuple_ltb l)).
  { intros c l. apply sorted_sorted; [apply tuple_ltb_asym | apply tuple_ltb_le_trans]. }
  split_and!.
  - apply sorted_perm.
  - eapply StronglySorted_weaken; [|apply Hsorted].
    intros s t. apply tuple_ltb_false.
  - intros s. apply sorted_filter. intros x y. apply tied_excludes_smaller.
  - apply sorted_fixpoint, Hsorted.
  - apply sorted_fixpoint.
    induction suppliers as [|s l IH]; constructor; [exact IH|].
    apply List.Forall_forall. intros t _. reflexivity.
Qed.

(** X18.  Ranking and the stock filter commute: the eligible suppliers
    of a ranked list are the ranked list of the eligible suppliers. *)
Theorem filter_eligible_of_ranked suppliers criteria required_quantity :
  filter_eligible_suppliers (rank_suppliers suppliers criteria) required_quantity
  = rank_suppliers (filter_eligible_suppliers suppliers required_quantity) criteria.
Proof.
  rewrite !rank_suppliers_as_sorted. unfold filter_eligible_suppliers.
  apply sorted_select; [apply tuple_ltb_asym | apply tuple_ltb_le_trans].
Qed.

Lemma split_loop_nil suppliers q :
  split_loop suppliers q = [] <->
  q <= 0 \/ List.filter (fun s => Qltb 0 (stock s)) suppliers = [].
Proof.
  induction suppliers as [|s rest IH].
  - simpl. tauto.
  - cbn [split_loop List.filter]. cbv zeta. fold (stock s).
    destruct (Qleb (stock s) 0) eqn:E0.
    + apply Qleb_le in E0.
      assert (Qltb 0 (stock s) = false) as -> by (apply Qltb_ge; exact E0).
      exact IH.
    + apply Qleb_gt in E0.
      assert (Qltb 0 (stock s) = true) as -> by (apply Qltb_lt; exact E0).
      destruct (Qltb 0 (Qmin (stock s) q)) eqn:Ea.
      * apply Qltb_lt in Ea.
        assert (0 < q) by (destruct (Qmin_cases (stock s) q) as [[? Hm] | [? Hm]];
                           rewrite Hm in Ea; lra).
        split; [discriminate|]. intros [Hq | Hnil]; [lra | discriminate].
      * apply Qltb_ge in Ea.
        assert (Hq : q <= 0) by (destruct (Qmin_cases (stock s) q) as [[? Hm] | [? Hm]];
                                 rewrite Hm in Ea; lra).
        assert (Qleb q 0 = true) as -> by (apply Qleb_le; exact Hq).
        tauto.
Qed.

(** X19.  The split plan is empty exactly when nothing is asked for or
    none of the first three suppliers has stock. *)
Theorem create_split_plan_empty suppliers required_quantity :
  create_split_plan suppliers required_quantity = [] <->
  required_quantity <= 0 \/
  List.filter (fun s => Qltb 0 (stock s)) (take 3 suppliers) = [].
Proof. rewrite create_split_plan_loop. apply split_loop_nil. Qed.

Lemma available_stock_nonneg suppliers : 0 <= available_stock suppliers.
Proof.
  induction suppliers as [|s rest IH]; simpl; [lra|].
  destruct (Qltb 0 (stock s)) eqn:E; [|exact IH].
  apply Qltb_lt in E. lra.
Qed.

Lemma plan_total_cons s a rest :
  plan_total (split_supplier s a :: rest) = round2 a + plan_total rest.
Proof.
  simpl. unfold dict_get. rewrite split_supplier_allocated_tons. reflexivity.
Qed.

Lemma split_loop_total suppliers :
  forall remaining,
    0 <= remaining -> hundredths remaining ->
    Forall (fun s => hundredths (stock s)) suppliers ->
    plan_total (split_loop suppliers remaining)
    == Qmin remaining (available_stock suppliers).
Proof.
  induction suppliers as [|s rest IH]; intros remaining Hrem Hh Hall.
  - simpl. destruct (Qmin_cases remaining 0) as [[H ->] | [H ->]]; lra.
  - inversion Hall as [|? ? Hs Hrest]; subst.
    cbn [split_loop available_stock]. cbv zeta. fold (stock s).
    pose proof (available_stock_nonneg rest) as Hav.
    destruct (Qleb (stock s) 0) eqn:E0.
    + apply Qleb_le in E0.
      assert (Qltb 0 (stock s) = false) as -> by (apply Qltb_ge; exact E0).
      apply IH; assumption.
    + apply Qleb_gt in E0.
      assert (Epos : Qltb 0 (stock s) = true) by (apply Qltb_lt; exact E0).
      rewrite Epos. unfold hundredths in Hs, Hh.
      destruct (Qmin_cases (stock s) remaining) as [[Hle Hmin] | [Hgt Hmin]];
        rewrite Hmin.
      * rewrite Epos, plan_total_cons.
        destruct (Qleb (remaining - stock s) 0) eqn:Er.
        -- apply Qleb_le in Er. simpl.
           destruct (Qmin_cases remaining (stock s + available_stock rest))
             as [[H ->] | [H ->]]; lra.
        -- apply Qleb_gt in Er.
           assert (H0 : 0 <= remaining - stock s) by lra.
           pose proof (IH (remaining - stock s) H0
                          (hundredths_minus _ _ Hh Hs) Hrest) as Hrec.
           destruct (Qmin_cases (remaining - stock s) (available_stock rest))
             as [[H Hm] | [H Hm]]; rewrite Hm in Hrec;
             destruct (Qmin_cases remaining (stock s + available_stock rest))
               as [[H' ->] | [H' ->]]; lra.
      * destruct (Qltb 0 remaining) eqn:Hr.
        -- assert (Qleb (remaining - remaining) 0 = true) as ->
             by (apply Qleb_le; lra).
           rewrite plan_total_cons. simpl.
           destruct (Qmin_cases remaining (stock s + available_stock rest))
             as [[H ->] | [H ->]]; lra.
        -- apply Qltb_ge in Hr.
           assert (Qleb remaining 0 = true) as -> by (apply Qleb_le; exact Hr).
           simpl.
           destruct (Qmin_cases remaining (stock s + available_stock rest))
             as [[H ->] | [H ->]]; lra.
Qed.

(** X20.  What a split plan covers.  For a required quantity that is
    not negative and stocks in whole hundredths, the [allocated_tons]
    of the plan add up to the smaller of the required quantity and the
    stock that the first three suppliers have: the plan covers the
    demand exactly when that stock suffices, and commits all of it
    otherwise. *)
Theorem create_split_plan_coverage suppliers required_quantity :
  0 <= required_quantity ->
  hundredths required_quantity ->
  Forall (fun s => hundredths (stock s)) (take 3 suppliers) ->
  let total := plan_total (create_split_plan suppliers required_quantity) in
  let available := available_stock (take 3 suppliers) in
  total == Qmin required_quantity available /\
  (required_quantity <= available -> total == required_quantity) /\
  (available < required_quantity -> total == available).
Proof.
  intros Hq Hh Hall. cbv zeta. rewrite create_split_plan_loop.
  pose proof (split_loop_total (take 3 suppliers) required_quantity Hq Hh Hall)
    as Htotal.
  split; [exact Htotal|].
  destruct (Qmin_cases required_quantity (available_stock (take 3 suppliers)))
    as [[H Hm] | [H Hm]]; rewrite Hm in Htotal; split; intros; lra.
Qed.

Lemma create_split_plan_coverage_witness :
  plan_total (create_split_plan [sample_b; sample_d; sample_a; sample_c] 60)
  == 50.
Proof.
  destruct (create_split_plan_coverage [sample_b; sample_d; sample_a; sample_c] 60)
    as (_ & _ & Hshort).
  - discriminate.
  - reflexivity.
  - repeat constructor.
  - apply Hshort. reflexivity.
Defined.

(** ** Route estimate, once more *)

Lemma Qtrunc_floor q : 0 <= q -> Qtrunc q = Qfloor q.
Proof.
  destruct q as [n d]. unfold Qle, Qtrunc, Qfloor. simpl. intros H.
  apply Z.quot_div_nonneg; lia.
Qed.

Section RouteMore.
Context {A : Type}.
Variable haversine_distance : Q -> Q -> Q -> Q -> Q.
Variable settings : Settings.
Variable strftime_Ymd : Z -> string.

Let route := calculate_route_eta (A := A) haversine_distance settings strftime_Ymd.

(** X21.  The outcomes of the route.  It returns an estimate only for
    a destination that has both coordinates; when one is missing it
    fails with status 400 before the clock is read, and the state is as
    it was.  Every failure is an HTTP error with status 400 or 500.
    Whatever the outcome, the response cache and the catalogues are
    untouched: a route estimate is never cached. *)
Theorem route_outcome request request_id (w : world A) :
  let result := route request request_id w in
  (forall r, result.1 = inr r ->
             is_Some (destination request !! "latitude") /\
             is_Some (destination request !! "longitude")) /\
  (destination request !! "latitude" = None \/
   destination request !! "longitude" = None ->
   result = (inl (HTTPException 400
                    "Destination must include 'latitude' and 'longitude'"), w)) /\
  (forall e, result.1 = inl e ->
             exists status detail,
               e = HTTPException status detail /\
               (status = 400 \/ status = 500)%Z) /\
  _cache result.2 = _cache w /\
  _supplier_data_cache result.2 = _supplier_data_cache w.
Proof.
  cbv zeta. unfold route.
  pose proof (calculate_route_eta_frame haversine_distance settings strftime_Ymd
                request request_id w) as [Hcache Hdata].
  split; [|split; [|split; [|split; assumption]]].
  - intros r Hr.
    destruct (destination request !! "latitude") as [lat|] eqn:Hlat;
      [destruct (destination request !! "longitude") as [lon|] eqn:Hlon|].
    + split; eexists; reflexivity.
    + rewrite calculate_route_eta_no_destination in Hr by auto. discriminate.
    + rewrite calculate_route_eta_no_destination in Hr by auto. discriminate.
  - apply calculate_route_eta_no_destination.
  - intros e He.
    destruct (destination request !! "latitude") as [lat|] eqn:Hlat;
      [destruct (destination request !! "longitude") as [lon|] eqn:Hlon|].
    + destruct (calculate_route_eta_run haversine_distance settings strftime_Ymd
                  request request_id w lat lon Hlat Hlon) as (r & Hr & _).
      congruence.
    + rewrite calculate_route_eta_no_destination in He by auto.
      injection He as <-. do 2 eexists. split; [reflexivity | auto].
    + rewrite calculate_route_eta_no_destination in He by auto.
      injection He as <-. do 2 eexists. split; [reflexivity | auto].
Qed.

(** X22.  Travel time of the route.  In every estimate that the route
    returns for a distance that is not negative, the duration is a whole
    number of minutes that is not negative, at most [1.5 * distance]
    (40 km/h) and less than a minute below it; the estimated arrival is
    the first reading of the clock plus that many minutes, never before
    that reading; the provenance says that the estimate does not come
    from the cache and bears the third reading of the clock, the last
    that the route takes. *)
Theorem route_travel_time request request_id (w : world A) dest_lat dest_lon r :
  destination request !! "latitude" = Some dest_lat ->
  destination request !! "longitude" = Some dest_lon ->
  (route request request_id w).1 = inr r ->
  let distance :=
    haversine_distance (latitude (route_origin request))
                       (longitude (route_origin request)) dest_lat dest_lon in
  0 <= distance ->
  (0 <= duration_minutes r)%Z /\
  (3 # 2) * distance - 1 <= inject_Z (duration_minutes r) /\
  inject_Z (duration_minutes r) <= (3 # 2) * distance /\
  eta r = (clock w (ticks w) + duration_minutes r * 60000000)%Z /\
  (clock w (ticks w) <= eta r)%Z /\
  cache (eta_provenance r) = false /\
  generated_at (eta_provenance r) = clock w (S (S (ticks w))) /\
  ticks (route request request_id w).2 = (3 + ticks w)%nat.
Proof.
  intros Hlat Hlon. cbv zeta.
  unfold route, calculate_route_eta, try_except, mbind, M_bind, bind.
  rewrite Hlat, Hlon. simpl.
  set (d := haversine_distance _ _ _ _) in *.
  intros Hr Hd. injection Hr as <-. simpl.
  assert (E : d / 40 * 60 == (3 # 2) * d) by field.
  assert (Hq : 0 <= d / 40 * 60) by (rewrite E; lra).
  rewrite (Qtrunc_floor _ Hq).
  rewrite (Qfloor_comp _ _ E).
  pose proof (Qfloor_le ((3 # 2) * d)) as Hlo.
  pose proof (Qlt_floor ((3 # 2) * d)) as Hhi.
  rewrite inject_Z_plus in Hhi. change (inject_Z 1) with 1 in Hhi.
  assert (H0 : (0 <= Qfloor ((3 # 2) * d))%Z).
  { assert (H1 : inject_Z (-1) < inject_Z (Qfloor ((3 # 2) * d))).
    { change (inject_Z (-1)) with (-1 # 1). lra. }
    rewrite <- Zlt_Qlt in H1. lia. }
  unfold timedelta_minutes.
  split_and!; try reflexivity; try assumption; try lra. lia.
Qed.

End RouteMore.

(** The duration is not always the whole part of [1.5 * distance]: for
    82 km the binary64 product is just below 123 and the program
    returns 122 minutes. *)
Example duration_binary64 : Binary64.int (82 / 40 * 60) = Some 122%Z.
Proof. reflexivity. Qed.

Lemma route_travel_time_witness :
  exists r,
    example_eta 20 (Some 25) = inr r /\
    inject_Z (duration_minutes r) <= 30 /\ eta r = 1800000000%Z.
Proof.
  destruct (example_eta 20 (Some 25)) as [e | r] eqn:Hrun;
    [vm_compute in Hrun; discriminate|].
  exists r. split; [reflexivity|].
  destruct (route_travel_time (A := unit) (fun _ _ _ _ => 20) default_settings
              (fun _ => "20251108") (example_route (Some 25)) "req-000000abcdef"
              (new_world (fun _ => 0%Z) 24) (173345 # 10000) (784512 # 10000) r
              eq_refl eq_refl Hrun)
    as (_ & _ & Hhi & Heta & _).
  - discriminate.
  - split; [lra|].
    rewrite Heta. vm_compute in Hrun. injection Hrun as <-. reflexivity.
Defined.

(** ** Haversine distance, once more *)

Module GeoMathRange.
Import GeoMath.

Local Open Scope R_scope.

Local Ltac lra := Lra.lra.
Local Ltac nra := Lra.nra.

Lemma Rround_half_even_nonneg x : 0 <= x -> (0 <= round_half_even x)%Z.
Proof.
  intros Hx. pose proof (Zfloor_bound x) as [Hlo Hhi].
  assert (Hf : (0 <= Zfloor x)%Z).
  { assert (H : (-1 < Zfloor x)%Z) by (apply lt_IZR; lra). lia. }
  unfold round_half_even.
  destruct (Rlt_dec _ _); [exact Hf|].
  destruct (Rlt_dec _ _); [lia|].
  destruct (Z.even _); lia.
Qed.

Lemma Rround2_nonneg x : 0 <= x -> 0 <= round2 x.
Proof.
  intros Hx. unfold round2.
  assert (H : (0 <= round_half_even (x * 100))%Z)
    by (apply Rround_half_even_nonneg; lra).
  apply IZR_le in H. lra.
Qed.

Lemma central_angle_bound lat1 lon1 lat2 lon2 :
  0 <= central_angle lat1 lon1 lat2 lon2 <= PI.
Proof. unfold central_angle. apply acos_bound. Qed.

(** X23.  The distance is never negative and never more than half the
    circumference of the sphere (6371 * PI km, about 20015 km), up to
    the half hundredth of the rounding. *)
Theorem haversine_distance_range lat1 lon1 lat2 lon2 :
  0 <= haversine_distance lat1 lon1 lat2 lon2 <= 6371 * PI + 1 / 200.
Proof.
  rewrite GeoMathFacts.haversine_unrounded.
  unfold great_circle_distance, EARTH_RADIUS_KM.
  pose proof (central_angle_bound lat1 lon1 lat2 lon2) as [Hlo Hhi].
  set (c := central_angle lat1 lon1 lat2 lon2) in *.
  split.
  - apply Rround2_nonneg. nra.
  - pose proof (GeoMathFacts.Rround2_error (6371 * c)). nra.
Qed.

Lemma acos_cos_abs x : Rabs x <= PI -> acos (cos x) = Rabs x.
Proof.
  unfold Rabs. destruct (Rcase_abs x) as [Hneg | Hpos]; intros H.
  - rewrite <- cos_neg. apply acos_cos. lra.
  - apply acos_cos. lra.
Qed.

Lemma radians_abs x : Rabs (radians x) = radians (Rabs x).
Proof.
  unfold radians. rewrite Rabs_mult. f_equal.
  apply Rabs_right. pose proof PI_RGT_0. lra.
Qed.

(** X24.  Along a meridian: between two points of the same longitude
    whose latitudes differ by at most 180 degrees, the distance is the
    length of the arc of that difference, 6371 km times the difference
    in radians, rounded to 2 decimals. *)
Theorem haversine_distance_meridian lat1 lat2 lon :
  Rabs (lat2 - lat1) <= 180 ->
  haversine_distance lat1 lon lat2 lon
  = round2 (6371 * radians (Rabs (lat2 - lat1))).
Proof.
  intros H. rewrite GeoMathFacts.haversine_unrounded.
  unfold great_circle_distance, EARTH_RADIUS_KM, central_angle.
  replace (radians lon - radians lon) with 0 by ring.
  rewrite cos_0, Rmult_1_r.
  replace (sin (radians lat1) * sin (radians lat2)
           + cos (radians lat1) * cos (radians lat2))
    with (cos (radians lat2 - radians lat1)) by (rewrite cos_minus; ring).
  rewrite <- GeoMathFacts.radians_minus.
  rewrite acos_cos_abs, radians_abs; [reflexivity|].
  rewrite radians_abs. unfold radians.
  pose proof PI_RGT_0. nra.
Qed.

End GeoMathRange.

Lemma haversine_distance_meridian_witness :
  GeoMath.haversine_distance 0 78 1 78
  = GeoMath.round2 (6371 * GeoMath.radians (Rabs (1 - 0)))%R.
Proof.
  apply (GeoMathRange.haversine_distance_meridian 0 1 78).
  rewrite Rminus_0_r, Rabs_R1. Lra.lra.
Defined.
